(** * Registry image pruner: a shallow embedding of [prune_images.py]

    The script lists the repositories of a Quay namespace, lists the active
    tags of each repository, and removes the derived-artifact tags
    ([sha256-<hex>.sbom], [.att], [.src], [.sig]) whose parent manifest digest
    is not the digest of any listed tag.

    The embedding keeps the dynamic typing of the script: JSON documents
    are values of [pyval], every subscript, [.get], iteration and addition
    can raise the exception Python raises, and the network is a sequence of
    [urlopen] outcomes consumed in call order.  Logging calls and HTTP calls
    are recorded in one chronological trace. *)

From Stdlib Require Import ZArith List String Ascii Bool Lia PeanoNat.
Import ListNotations.

Open Scope string_scope.
Open Scope list_scope.
Open Scope Z_scope.

Set Warnings "-register-all".

(** ** Python values as [json.loads] produces them

    JSON numbers are kept as integers (the registry's [page] is one).  A
    [dict] keeps its insertion order, which iteration observes, so it is an
    association list; [json.loads] never produces a repeated key. *)

Inductive pyval : Type :=
| PNone
| PBool (b : bool)
| PInt (z : Z)
| PStr (s : string)
| PList (l : list pyval)
| PDict (d : list (string * pyval)).

(** The exceptions the script can see. [HTTPError] is the only one
    [delete_image_tag] catches. *)
Inductive exn : Type :=
| KeyError (key : string)
| TypeError
| AttributeError
| RuntimeError (reason : string)
| HTTPError (status : Z) (reason : string)
| URLError (reason : string)
| JSONDecodeError
| ValueError (msg : string)
| SystemExit (code : Z).

(** A computation returns, raises, or is cut off by the loop bound of the
    model ([OutOfFuel] is not a Python outcome). *)
Inductive result (A : Type) : Type :=
| Ok (a : A)
| Raise (e : exn)
| OutOfFuel.

Arguments Ok {A} a.
Arguments Raise {A} e.
Arguments OutOfFuel {A}.

(** ** Dynamic operations *)

(** Truth value of an object, as [if x] and [not x] test it. *)
Definition truthy (v : pyval) : bool :=
  match v with
  | PNone => false
  | PBool b => b
  | PInt z => negb (z =? 0)
  | PStr s => negb (s =? "")%string
  | PList l => match l with [] => false | _ :: _ => true end
  | PDict d => match d with [] => false | _ :: _ => true end
  end.

Fixpoint assoc (k : string) (d : list (string * pyval)) : option pyval :=
  match d with
  | [] => None
  | (k', v) :: d' => if (k =? k')%string then Some v else assoc k d'
  end.

(** [d.get(key, default)] on a dict. *)
Definition dict_get (d : list (string * pyval)) (key : string) (default : pyval) : pyval :=
  match assoc key d with
  | Some v => v
  | None => default
  end.

(** [obj.get(key, default)]: only a dict has the method. *)
Definition py_get (obj : pyval) (key : string) (default : pyval) : result pyval :=
  match obj with
  | PDict d => Ok (dict_get d key default)
  | _ => Raise AttributeError
  end.

(** [obj[key]] with a string key. *)
Definition py_getitem (obj : pyval) (key : string) : result pyval :=
  match obj with
  | PDict d =>
      match assoc key d with
      | Some v => Ok v
      | None => Raise (KeyError key)
      end
  | _ => Raise TypeError
  end.

Fixpoint chars (s : string) : list pyval :=
  match s with
  | EmptyString => []
  | String c s' => PStr (String c EmptyString) :: chars s'
  end.

(** The items a [for] loop or [list.extend] draws from an object. *)
Definition py_iter (obj : pyval) : result (list pyval) :=
  match obj with
  | PList l => Ok l
  | PStr s => Ok (chars s)
  | PDict d => Ok (map (fun kv => PStr (fst kv)) d)
  | _ => Raise TypeError
  end.

(** [obj + 1]. *)
Definition py_add1 (obj : pyval) : result pyval :=
  match obj with
  | PInt z => Ok (PInt (z + 1))
  | PBool b => Ok (PInt (Z.b2z b + 1))
  | _ => Raise TypeError
  end.

(** [s == v] for a string [s]. *)
Definition str_eq (s : string) (v : pyval) : bool :=
  match v with
  | PStr t => (s =? t)%string
  | _ => false
  end.

(** [s in l] for a string [s] and a list [l]. *)
Definition str_in (s : string) (l : list pyval) : bool := existsb (str_eq s) l.

(** ** The tag pattern

    [re.compile(r"^sha256-([0-9a-f]+)(\.sbom|\.att|\.src|\.sig)$")], used
    with [match]: anchored at the start, and [$] accepts the end of the
    string or the position before a final line feed. *)

Definition LF : string := String (ascii_of_nat 10) EmptyString.

Definition tag_suffixes : list string := [".sbom"; ".att"; ".src"; ".sig"].

Definition is_lower_hex (c : ascii) : bool :=
  let n := nat_of_ascii c in
  ((48 <=? n)%nat && (n <=? 57)%nat) || ((97 <=? n)%nat && (n <=? 102)%nat).

Fixpoint all_chars (p : ascii -> bool) (s : string) : bool :=
  match s with
  | EmptyString => true
  | String c s' => p c && all_chars p s'
  end.

(** The language of the pattern, with the text of group 1. *)
Inductive tag_regex_matches : string -> string -> Prop :=
| tag_regex_matches_intro (hex suffix tail : string) :
    hex <> "" ->
    all_chars is_lower_hex hex = true ->
    In suffix tag_suffixes ->
    tail = "" \/ tail = LF ->
    tag_regex_matches ("sha256-" ++ hex ++ suffix ++ tail) hex.

Fixpoint strip_prefix (p s : string) : option string :=
  match p with
  | EmptyString => Some s
  | String a p' =>
      match s with
      | EmptyString => None
      | String b s' => if Ascii.eqb a b then strip_prefix p' s' else None
      end
  end.

(** The longest run of [[0-9a-f]] at the head of [s], and what follows. *)
Fixpoint hex_run (s : string) : string * string :=
  match s with
  | EmptyString => (EmptyString, EmptyString)
  | String c s' =>
      if is_lower_hex c
      then let '(h, rest) := hex_run s' in (String c h, rest)
      else (EmptyString, s)
  end.

(** [tag_regex.match(name)]: [Some] of group 1, or [None]. The run of hex
    digits is followed by a dot, so the greedy run is the only split. *)
Definition tag_regex_match (name : string) : option string :=
  match strip_prefix "sha256-" name with
  | None => None
  | Some r =>
      let '(h, rest) := hex_run r in
      if (h =? "")%string then None
      else if existsb (fun suf => (rest =? suf)%string || (rest =? suf ++ LF)%string)
                tag_suffixes
           then Some h
           else None
  end.

(** ** The network and the log

    A request keeps the parts of the URL the script formats into it; the
    text of the URL and [urlencode] stay symbolic. *)

Definition QUAY_API_URL : string := "https://quay.io/api/v1".

Inductive http_method : Type := GET | DELETE.

Inductive endpoint : Type :=
| Repository                                   (* {QUAY_API_URL}/repository *)
| RepositoryTags (namespace name : pyval)      (* .../repository/{namespace}/{name}/tag/ *)
| RepositoryTag (namespace name tag : pyval).  (* .../repository/{namespace}/{name}/tag/{tag} *)

Record Request : Type := mkRequest {
  req_method : http_method;
  req_endpoint : endpoint;
  req_query : list (string * pyval);
  req_bearer : string
}.

(** What the script reads of a response: [status], [reason], and the
    document [json.loads(resp.read())] gives ([None] when the body is not
    JSON). *)
Record HTTPResponse : Type := mkResponse {
  status : Z;
  reason : string;
  body : option pyval
}.

(** [urlopen] returns a response or raises. *)
Inductive outcome : Type :=
| Returned (resp : HTTPResponse)
| Failed (e : exn).

Inductive log_level : Type := DEBUG | INFO.

Inductive log_msg : Type :=
| NoTagsFound                                        (* "No tags found." *)
| ShouldBeRemoved (tag namespace name : pyval)       (* "Tag %s from %s/%s should be removed" *)
| RemovingTag (tag namespace name : pyval)           (* "Removing tag %s from %s/%s" *)
| NotSuffixTag (tag : pyval)                         (* "%s is not an tag with suffix .att or .sbom" *)
| ProcessingRepository (index : nat) (namespace name : pyval)
                                                     (* "Processing repository %s: %s/%s" *)
| NoImageRepository.                                 (* "No image repository is found." *)

Inductive event : Type :=
| Call (req : Request) (o : outcome)
| Log (level : log_level) (msg : log_msg).

(** The state a run threads: the outcomes [urlopen] will give, in call
    order; how many calls were made; the trace so far, oldest event first;
    and the module's [processed_repos_counter]. *)
Record world : Type := mkWorld {
  net : nat -> outcome;
  calls : nat;
  trace : list event;
  processed_repos_counter : nat
}.

Definition M (A : Type) : Type := world -> result A * world.

Definition ret {A} (a : A) : M A := fun w => (Ok a, w).

Definition raise {A} (e : exn) : M A := fun w => (Raise e, w).

Definition out_of_fuel {A} : M A := fun w => (OutOfFuel, w).

Definition bind {A B} (m : M A) (k : A -> M B) : M B :=
  fun w =>
    match m w with
    | (Ok a, w') => k a w'
    | (Raise e, w') => (Raise e, w')
    | (OutOfFuel, w') => (OutOfFuel, w')
    end.

Definition lift {A} (r : result A) : M A := fun w => (r, w).

Declare Scope py_scope.
Delimit Scope py_scope with py.
Notation "x <- m ;; k" := (bind m (fun x => k))
  (at level 100, m at next level, right associativity) : py_scope.
Notation "m ;;; k" := (bind m (fun _ => k))
  (at level 100, right associativity) : py_scope.
Open Scope py_scope.

(** [try: m except HTTPError as ex: h ex]. *)
Definition try_except_HTTPError {A} (m : M A) (h : Z -> string -> M A) : M A :=
  fun w =>
    match m w with
    | (Raise (HTTPError st rs), w') => h st rs w'
    | other => other
    end.

Definition add_event (e : event) (w : world) : world :=
  mkWorld (net w) (calls w) (trace w ++ [e]) (processed_repos_counter w).

(** [urlopen(request)]: takes the next outcome and records the call. *)
Definition urlopen (req : Request) : M HTTPResponse :=
  fun w =>
    let o := net w (calls w) in
    let w' := mkWorld (net w) (S (calls w)) (trace w ++ [Call req o])
                      (processed_repos_counter w) in
    match o with
    | Returned resp => (Ok resp, w')
    | Failed e => (Raise e, w')
    end.

(** [LOGGER.debug] and [LOGGER.info]. The handler is configured at level
    INFO, so a DEBUG record is made but not written. *)
Definition log (level : log_level) (msg : log_msg) : M unit :=
  fun w => (Ok tt, add_event (Log level msg) w).

(** [next(processed_repos_counter)]. *)
Definition next_processed_repos_counter : M nat :=
  fun w => (Ok (processed_repos_counter w),
            mkWorld (net w) (calls w) (trace w) (S (processed_repos_counter w))).

(** [json.loads(resp.read())]. *)
Definition json_loads (resp : HTTPResponse) : M pyval :=
  match body resp with
  | Some v => ret v
  | None => raise JSONDecodeError
  end.

(** ** The script *)

(** [get_quay_tags]: one iteration of the [while True] loop per unit of
    [fuel]; [next_page] and [all_tags] are the loop's variables. *)
Fixpoint get_quay_tags_loop (fuel : nat) (quay_token : string) (namespace name : pyval)
    (next_page : pyval) (all_tags : list pyval) : M (list pyval) :=
  match fuel with
  | O => out_of_fuel
  | S fuel' =>
      let query_args :=
        [("limit", PInt 100); ("onlyActiveTags", PBool true)]
        ++ match next_page with
           | PNone => []
           | _ => [("page", next_page)]
           end in
      resp <- urlopen (mkRequest GET (RepositoryTags namespace name) query_args quay_token) ;;
      (if negb (status resp =? 200) then raise (RuntimeError (reason resp)) else ret tt) ;;;
      json_data <- json_loads resp ;;
      tags <- lift (py_get json_data "tags" (PList [])) ;;
      items <- lift (py_iter tags) ;;
      let all_tags := all_tags ++ items in
      if negb (truthy tags) then
        log DEBUG NoTagsFound ;;;
        ret all_tags
      else
        page <- lift (py_get json_data "page" PNone) ;;
        additional <- lift (py_get json_data "has_additional" (PBool false)) ;;
        if truthy additional then
          next_page <- lift (py_add1 page) ;;
          get_quay_tags_loop fuel' quay_token namespace name next_page all_tags
        else
          ret all_tags
  end.

Definition get_quay_tags (fuel : nat) (quay_token : string) (namespace name : pyval)
    : M (list pyval) :=
  get_quay_tags_loop fuel quay_token namespace name PNone [].

(** [delete_image_tag]. *)
Definition delete_image_tag (quay_token : string) (namespace name tag : pyval) : M unit :=
  try_except_HTTPError
    (resp <- urlopen (mkRequest DELETE (RepositoryTag namespace name tag) [] quay_token) ;;
     if negb (status resp =? 200) && negb (status resp =? 204)
     then raise (RuntimeError (reason resp))
     else ret tt)
    (fun st rs =>
       (* ignore if not found *)
       if negb (st =? 404) then raise (HTTPError st rs) else ret tt).

(** [[image["manifest_digest"] for image in tags]]. *)
Fixpoint manifest_digests (tags : list pyval) : result (list pyval) :=
  match tags with
  | [] => Ok []
  | image :: rest =>
      match py_getitem image "manifest_digest" with
      | Ok d =>
          match manifest_digests rest with
          | Ok ds => Ok (d :: ds)
          | Raise e => Raise e
          | OutOfFuel => OutOfFuel
          end
      | Raise e => Raise e
      | OutOfFuel => OutOfFuel
      end
  end.

(** [tag_regex.match(v)]: a pattern over [str] takes only a [str]. *)
Definition re_match (v : pyval) : result (option string) :=
  match v with
  | PStr s => Ok (tag_regex_match s)
  | _ => Raise TypeError
  end.

(** The [for tag in tags] loop of [remove_tags]. *)
Fixpoint remove_tags_loop (image_digests : list pyval) (tags : list pyval)
    (quay_token : string) (namespace name : pyval) (dry_run : bool) : M unit :=
  match tags with
  | [] => ret tt
  | tag :: rest =>
      tag_name <- lift (py_getitem tag "name") ;;
      m <- lift (re_match tag_name) ;;
      match m with
      | Some group1 =>
          (* attestation or sbom image *)
          if negb (str_in ("sha256:" ++ group1) image_digests) then
            if dry_run then
              log INFO (ShouldBeRemoved tag_name namespace name)
            else
              log INFO (RemovingTag tag_name namespace name) ;;;
              delete_image_tag quay_token namespace name tag_name
          else ret tt
      | None =>
          log DEBUG (NotSuffixTag tag_name)
      end ;;;
      remove_tags_loop image_digests rest quay_token namespace name dry_run
  end.

Definition remove_tags (tags : list pyval) (quay_token : string) (namespace name : pyval)
    (dry_run : bool) : M unit :=
  image_digests <- lift (manifest_digests tags) ;;
  remove_tags_loop image_digests tags quay_token namespace name dry_run.

(** The [for repo in repos] loop of [process_repositories]; [fuel] bounds
    the loop inside [get_quay_tags]. *)
Fixpoint process_repositories_loop (fuel : nat) (repos : list pyval) (quay_token : string)
    (dry_run : bool) : M unit :=
  match repos with
  | [] => ret tt
  | repo :: rest =>
      namespace <- lift (py_getitem repo "namespace") ;;
      name <- lift (py_getitem repo "name") ;;
      index <- next_processed_repos_counter ;;
      log INFO (ProcessingRepository index namespace name) ;;;
      all_tags <- get_quay_tags fuel quay_token namespace name ;;
      match all_tags with
      | [] => ret tt
      | _ :: _ => remove_tags all_tags quay_token namespace name dry_run
      end ;;;
      process_repositories_loop fuel rest quay_token dry_run
  end.

Definition process_repositories (fuel : nat) (repos : pyval) (quay_token : string)
    (dry_run : bool) : M unit :=
  items <- lift (py_iter repos) ;;
  process_repositories_loop fuel items quay_token dry_run.

(** [fetch_image_repos] is a generator. Its frame is either not started,
    suspended at the [yield] with [json_data] bound, or finished. *)
Inductive generator : Type :=
| Created
| Suspended (json_data : pyval)
| Finished.

(** From the top of the [while True] loop to the [yield] or the [break]. *)
Definition fetch_image_repos_page (access_token namespace : string) (next_page : pyval)
    : M (option pyval * generator) :=
  let query_args :=
    [("namespace", PStr namespace)]
    ++ match next_page with
       | PNone => []
       | _ => [("next_page", next_page)]
       end in
  resp <- urlopen (mkRequest GET Repository query_args access_token) ;;
  (if negb (status resp =? 200) then raise (RuntimeError (reason resp)) else ret tt) ;;;
  json_data <- json_loads resp ;;
  repos <- lift (py_get json_data "repositories" (PList [])) ;;
  if negb (truthy repos) then
    log DEBUG NoImageRepository ;;;
    ret (None, Finished)
  else
    ret (Some repos, Suspended json_data).

(** [next(gen)]: [Some batch] for a [yield], [None] for [StopIteration]. *)
Definition fetch_image_repos_next (access_token namespace : string) (gen : generator)
    : M (option pyval * generator) :=
  match gen with
  | Created => fetch_image_repos_page access_token namespace PNone
  | Suspended json_data =>
      next_page <- lift (py_get json_data "next_page" PNone) ;;
      match next_page with
      | PNone => ret (None, Finished)
      | _ => fetch_image_repos_page access_token namespace next_page
      end
  | Finished => ret (None, Finished)
  end.

(** [list(fetch_image_repos(access_token, namespace))], from a frame. *)
Fixpoint fetch_image_repos_from (fuel : nat) (access_token namespace : string)
    (gen : generator) : M (list pyval) :=
  match fuel with
  | O => out_of_fuel
  | S fuel' =>
      step <- fetch_image_repos_next access_token namespace gen ;;
      match step with
      | (None, _) => ret []
      | (Some repos, gen') =>
          more <- fetch_image_repos_from fuel' access_token namespace gen' ;;
          ret (repos :: more)
      end
  end.

Definition fetch_image_repos (fuel : nat) (access_token namespace : string) : M (list pyval) :=
  fetch_image_repos_from fuel access_token namespace Created.

(** The command line as [argparse] sees it: [--namespace] carries a value
    or is missing, [--dry-run] is set or not. *)
Record CommandLine : Type := mkCommandLine {
  opt_namespace : option string;
  opt_dry_run : bool
}.

Record Args : Type := mkArgs {
  args_namespace : string;
  args_dry_run : bool
}.

(** [parse_args]: a missing required option makes [argparse] exit with 2. *)
Definition parse_args (argv : CommandLine) : M Args :=
  match opt_namespace argv with
  | Some ns => ret (mkArgs ns (opt_dry_run argv))
  | None => raise (SystemExit 2)
  end.

(** The [for image_repos in fetch_image_repos(...)] loop of [main]. *)
Fixpoint main_loop (fuel inner : nat) (token : string) (args : Args) (gen : generator)
    : M unit :=
  match fuel with
  | O => out_of_fuel
  | S fuel' =>
      step <- fetch_image_repos_next token (args_namespace args) gen ;;
      match step with
      | (None, _) => ret tt
      | (Some image_repos, gen') =>
          process_repositories inner image_repos token (args_dry_run args) ;;;
          main_loop fuel' inner token args gen'
      end
  end.

(** [main]; [QUAY_TOKEN] is [os.getenv("QUAY_TOKEN")]. *)
Definition main (fuel : nat) (QUAY_TOKEN : option string) (argv : CommandLine) : M unit :=
  match QUAY_TOKEN with
  | None => raise (ValueError "The token required for access to Quay API is missing!")
  | Some token =>
      if (token =? "")%string
      then raise (ValueError "The token required for access to Quay API is missing!")
      else
        args <- parse_args argv ;;
        main_loop fuel fuel token args Created
  end.

(** Exit status of the interpreter running the script: 0 after a normal
    return, the code of a [SystemExit], 1 after any other exception. *)
Definition exit_status (r : result unit) : option Z :=
  match r with
  | Ok _ => Some 0
  | Raise (SystemExit code) => Some code
  | Raise _ => Some 1
  | OutOfFuel => None
  end.

(** A fresh process: nothing called, nothing logged, counter at 0. *)
Definition boot (responses : nat -> outcome) : world := mkWorld responses 0 [] 0.

(** A response script from a list; past its end the connection fails. *)
Definition script (l : list outcome) : nat -> outcome :=
  fun n => nth n l (Failed (URLError "connection refused")).

(** A 200 response with a JSON object as body. *)
Definition ok_json (d : list (string * pyval)) : outcome :=
  Returned (mkResponse 200 "OK" (Some (PDict d))).

(** ** Observations on traces *)

Definition requests (t : list event) : list Request :=
  flat_map (fun e => match e with Call r _ => [r] | Log _ _ => [] end) t.

Definition logged (t : list event) : list (log_level * log_msg) :=
  flat_map (fun e => match e with Log l m => [(l, m)] | Call _ _ => [] end) t.

(** The tag names a trace reports as removable or asks the registry to
    delete. *)
Definition reported_tags (t : list event) : list pyval :=
  flat_map (fun e =>
    match e with
    | Log _ (ShouldBeRemoved tag _ _) => [tag]
    | Log _ (RemovingTag tag _ _) => [tag]
    | Call (mkRequest DELETE (RepositoryTag _ _ tag) _ _) _ => [tag]
    | _ => []
    end) t.

(** A tag as the registry lists it, with its two fields. *)
Definition tag (name digest : string) : pyval :=
  PDict [("name", PStr name); ("manifest_digest", PStr digest)].

(** The example repository of the specification: three active tags. *)
Definition example_tags : list pyval :=
  [tag "v1" "sha256:aaa"; tag "sha256-aaa.sbom" "sha256:bbb"; tag "sha256-ccc.att" "sha256:ddd"].

(** ** Vocabulary of the properties *)

(** What one tag may be reported for under a given digest collection. *)
Definition orphan_of (image_digests tags : list pyval) (t : pyval) : Prop :=
  exists n hex,
    t = PStr n /\ tag_regex_match n = Some hex
    /\ (exists tg, In tg tags /\ py_getitem tg "name" = Ok (PStr n))
    /\ str_in ("sha256:" ++ hex) image_digests = false.

(** What [urlopen] makes of the final status of an exchange: the default
    opener hands back a 2xx response and raises [HTTPError] for any other
    status (a DELETE is not redirected). *)
Definition urlopen_outcome (st : Z) (rs : string) (b : option pyval) : outcome :=
  if (200 <=? st) && (st <? 300)
  then Returned (mkResponse st rs b)
  else Failed (HTTPError st rs).

(** The declared type of a tag, [Dict[str, Any]]. *)
Definition is_dict (v : pyval) : Prop := exists d, v = PDict d.

(** The orphan detector of the specification, as a pure function: the tags
    whose name matches the pattern and whose [sha256:<group 1>] is the
    [manifest_digest] of no tag of the list. *)
Definition FindOrphanTags (tags : list pyval) : list pyval :=
  filter (fun t =>
    match py_getitem t "name" with
    | Ok (PStr n) =>
        match tag_regex_match n with
        | Some hex =>
            negb (existsb (fun image =>
                    match py_getitem image "manifest_digest" with
                    | Ok d => str_eq ("sha256:" ++ hex) d
                    | _ => false
                    end) tags)
        | None => false
        end
    | _ => false
    end) tags.

(** The fields of a tag in the data model: a string [name] and a
    [manifest_digest]. *)
Definition tag_fields (t : pyval) : Prop :=
  exists n d, py_getitem t "name" = Ok (PStr n) /\ py_getitem t "manifest_digest" = Ok d.

(** What the loop of [remove_tags] selects under a digest collection. *)
Definition selected (image_digests : list pyval) (t : pyval) : bool :=
  match py_getitem t "name" with
  | Ok (PStr n) =>
      match tag_regex_match n with
      | Some hex => negb (str_in ("sha256:" ++ hex) image_digests)
      | None => false
      end
  | _ => false
  end.

(** The messages written at the configured level. *)
Definition info_logs (t : list event) : list log_msg :=
  flat_map (fun e => match e with Log INFO m => [m] | _ => [] end) t.

(** The request of [get_quay_tags] for a value of [next_page]. *)
Definition tags_request (quay_token : string) (namespace name : pyval) (next_page : pyval)
    : Request :=
  mkRequest GET (RepositoryTags namespace name)
    ([("limit", PInt 100); ("onlyActiveTags", PBool true)]
     ++ match next_page with
        | PNone => []
        | _ => [("page", next_page)]
        end)
    quay_token.

(** The world after one more call. *)
Definition called (req : Request) (w : world) : world :=
  mkWorld (net w) (S (calls w)) (trace w ++ [Call req (net w (calls w))])
    (processed_repos_counter w).

(** A 200 response whose JSON object [d] carries the batch of tags. *)
Definition tags_response (o : outcome) (d : list (string * pyval)) (batch : list pyval)
    : Prop :=
  exists rs,
    o = Returned (mkResponse 200 rs (Some (PDict d)))
    /\ dict_get d "tags" (PList []) = PList batch.

(** [tag_listing responses k page batches pages]: from call [k] on, a
    listing that starts with the parameter [page] reads the batches
    [batches] with the successive parameters [pages]; every page but the
    last has tags, a true [has_additional] and a [page] to add 1 to, and
    the last has no tags or a false [has_additional]. *)
Inductive tag_listing (responses : nat -> outcome)
    : nat -> pyval -> list (list pyval) -> list pyval -> Prop :=
| tag_listing_last (k : nat) (page : pyval) (d : list (string * pyval))
    (batch : list pyval) :
    tags_response (responses k) d batch ->
    batch = [] \/ truthy (dict_get d "has_additional" (PBool false)) = false ->
    tag_listing responses k page [batch] [page]
| tag_listing_more (k : nat) (page : pyval) (d : list (string * pyval))
    (batch : list pyval) (next : pyval) (batches : list (list pyval))
    (pages : list pyval) :
    tags_response (responses k) d batch ->
    batch <> [] ->
    truthy (dict_get d "has_additional" (PBool false)) = true ->
    py_add1 (dict_get d "page" PNone) = Ok next ->
    tag_listing responses (S k) next batches pages ->
    tag_listing responses k page (batch :: batches) (page :: pages).

(** Two pages that both list the tag [v1]. *)
Definition repeated_tag_pages : nat -> outcome :=
  script [ok_json [("tags", PList [tag "v1" "sha256:aaa"]);
                   ("page", PInt 1); ("has_additional", PBool true)];
          ok_json [("tags", PList [tag "v1" "sha256:aaa"]);
                   ("page", PInt 2); ("has_additional", PBool false)]].

(** The request of [fetch_image_repos] for a value of [next_page]. *)
Definition repos_request (access_token namespace : string) (next_page : pyval) : Request :=
  mkRequest GET Repository
    ([("namespace", PStr namespace)]
     ++ match next_page with
        | PNone => []
        | _ => [("next_page", next_page)]
        end)
    access_token.

(** A 200 response whose JSON object [d] carries the batch [repos]. *)
Definition repos_response (o : outcome) (d : list (string * pyval)) (repos : pyval) : Prop :=
  exists rs,
    o = Returned (mkResponse 200 rs (Some (PDict d)))
    /\ dict_get d "repositories" (PList []) = repos.

(** [repo_listing responses k cursor batches cursors]: from call [k] on, a
    listing that starts with the cursor [cursor] is answered with the
    batches [batches], asked for with the successive cursors [cursors].
    Every page before the last has a batch and a [next_page]; the last
    page has an empty batch, which is left out, or a batch and no
    [next_page]. *)
Inductive repo_listing (responses : nat -> outcome)
    : nat -> pyval -> list pyval -> list pyval -> Prop :=
| repo_listing_empty (k : nat) (cursor : pyval) (d : list (string * pyval)) (repos : pyval) :
    repos_response (responses k) d repos ->
    truthy repos = false ->
    repo_listing responses k cursor [] [cursor]
| repo_listing_last (k : nat) (cursor : pyval) (d : list (string * pyval)) (repos : pyval) :
    repos_response (responses k) d repos ->
    truthy repos = true ->
    dict_get d "next_page" PNone = PNone ->
    repo_listing responses k cursor [repos] [cursor]
| repo_listing_more (k : nat) (cursor : pyval) (d : list (string * pyval)) (repos : pyval)
    (next : pyval) (batches cursors : list pyval) :
    repos_response (responses k) d repos ->
    truthy repos = true ->
    dict_get d "next_page" PNone = next ->
    next <> PNone ->
    repo_listing responses (S k) next batches cursors ->
    repo_listing responses k cursor (repos :: batches) (cursor :: cursors).

(** Draining the generator from the top of its loop. *)
Definition drain_page (fuel : nat) (tok ns : string) (cursor : pyval) : M (list pyval) :=
  step <- fetch_image_repos_page tok ns cursor ;;
  match step with
  | (None, _) => ret []
  | (Some repos, gen') =>
      more <- fetch_image_repos_from fuel tok ns gen' ;;
      ret (repos :: more)
  end.

(** Three pages of repositories, chained by their cursors. *)
Definition repo (namespace name : string) : pyval :=
  PDict [("namespace", PStr namespace); ("name", PStr name)].

Definition three_repo_pages : nat -> outcome :=
  script [ok_json [("repositories", PList [repo "acme" "app"]); ("next_page", PStr "c1")];
          ok_json [("repositories", PList [repo "acme" "db"; repo "acme" "web"]);
                   ("next_page", PStr "c2")];
          ok_json [("repositories", PList [repo "acme" "tools"])]].

(** The answers an operation accepts: 200 for a listing; 200, 204 and a
    404 raised by [urlopen] for a deletion. *)
Definition accepted (req : Request) (o : outcome) : bool :=
  match req_method req, o with
  | GET, Returned resp => status resp =? 200
  | DELETE, Returned resp => (status resp =? 200) || (status resp =? 204)
  | DELETE, Failed (HTTPError st _) => st =? 404
  | _, Failed _ => false
  end.

(** The error an answer that is not accepted turns into. *)
Definition api_error (o : outcome) : exn :=
  match o with
  | Returned resp => RuntimeError (reason resp)
  | Failed e => e
  end.

(** Every call of a trace was accepted. *)
Definition all_accepted (evs : list event) : bool :=
  forallb (fun e => match e with Call req o => accepted req o | Log _ _ => true end) evs.

(** Either every call of the run was accepted, or the call that was not
    is the last event of the run and the run raised its error. *)
Definition stops_at_error {A} (evs : list event) (r : result A) : Prop :=
  all_accepted evs = true
  \/ exists pre req o,
       evs = pre ++ [Call req o]
       /\ all_accepted pre = true
       /\ accepted req o = false
       /\ r = Raise (api_error o).

(** A computation all of whose runs stop at the first error. *)
Definition fail_stop {A} (m : M A) : Prop :=
  forall w, exists evs,
    trace (snd (m w)) = trace w ++ evs /\ stops_at_error evs (fst (m w)).

(** A namespace with two repositories; the deletion of the orphan of the
    first is answered with 500. *)
Definition failing_delete_run : nat -> outcome :=
  script [ok_json [("repositories", PList [repo "acme" "app"; repo "acme" "db"])];
          ok_json [("tags", PList example_tags); ("page", PInt 1);
                   ("has_additional", PBool false)];
          urlopen_outcome 500 "Internal Server Error" None].

(** ** Vocabulary of the further properties *)

(** The value of [tag["name"]], for a tag that has one. *)
Definition tag_name (t : pyval) : pyval :=
  match py_getitem t "name" with
  | Ok v => v
  | _ => PNone
  end.

(** The DELETE request of [delete_image_tag]. *)
Definition delete_request (quay_token : string) (namespace name tg : pyval) : Request :=
  mkRequest DELETE (RepositoryTag namespace name tg) [] quay_token.

(** A computation that appends only events of a given kind. *)
Definition emits {A} (P : event -> Prop) (m : M A) : Prop :=
  forall w, exists evs, trace (snd (m w)) = trace w ++ evs /\ Forall P evs.

(** The call of an event carries the bearer token [tok]. *)
Definition carries_token (tok : string) (e : event) : Prop :=
  match e with
  | Call req _ => req_bearer req = tok
  | Log _ _ => True
  end.

(** The call of an event is a GET. *)
Definition read_only (e : event) : Prop :=
  match e with
  | Call req _ => req_method req = GET
  | Log _ _ => True
  end.

(** The indices of the "Processing repository" records of a trace. *)
Definition processing_indices (t : list event) : list nat :=
  flat_map (fun e =>
    match e with
    | Log _ (ProcessingRepository index _ _) => [index]
    | _ => []
    end) t.

(** A computation that numbers the repositories it processes with the
    successive values of the counter. *)
Definition numbers_repositories {A} (m : M A) : Prop :=
  forall w, exists evs,
    trace (snd (m w)) = trace w ++ evs
    /\ (processed_repos_counter w <= processed_repos_counter (snd (m w)))%nat
    /\ processing_indices evs
       = seq (processed_repos_counter w)
           (processed_repos_counter (snd (m w)) - processed_repos_counter w).

(** A registry that answers every listing of tags with one more page. *)
Definition endless_tag_pages : nat -> outcome :=
  fun _ => ok_json [("tags", PList [tag "v1" "sha256:aaa"]);
                    ("page", PInt 1); ("has_additional", PBool true)].

(** The events the script can append with the token [tok]: records, the
    two listings, and the deletion unless the run is a dry run. *)
Definition script_events (P : event -> Prop) (tok : string) (dry : bool) : Prop :=
  (forall level msg, P (Log level msg))
  /\ (forall ns nm np o, P (Call (tags_request tok ns nm np) o))
  /\ (forall ns np o, P (Call (repos_request tok ns np) o))
  /\ (dry = false -> forall ns nm t o, P (Call (delete_request tok ns nm t) o)).

(** * Properties *)

(** ** The tag pattern *)

Lemma strip_prefix_sound (p s r : string) :
  strip_prefix p s = Some r -> s = (p ++ r)%string.
Proof.
  revert s; induction p as [|a p IH]; intros s H; simpl in *.
  - now inversion H.
  - destruct s as [|b s]; [discriminate|].
    destruct (Ascii.eqb a b) eqn:E; [|discriminate].
    apply Ascii.eqb_eq in E; subst b.
    now rewrite (IH _ H).
Qed.

Lemma strip_prefix_app (p r : string) : strip_prefix p (p ++ r) = Some r.
Proof.
  induction p as [|a p IH]; simpl; [reflexivity|].
  now rewrite Ascii.eqb_refl.
Qed.

Lemma hex_run_sound (s h rest : string) :
  hex_run s = (h, rest) ->
  s = (h ++ rest)%string /\ all_chars is_lower_hex h = true.
Proof.
  revert h rest; induction s as [|c s IH]; intros h rest H; simpl in H.
  - inversion H; subst; now split.
  - destruct (is_lower_hex c) eqn:Hc.
    + destruct (hex_run s) as [h' rest'] eqn:E.
      inversion H; subst; clear H.
      destruct (IH _ _ eq_refl) as [-> Hall].
      split; [reflexivity|]. simpl. now rewrite Hc.
    + inversion H; subst; now split.
Qed.

(** A run of hex digits followed by a character outside the class is what
    the greedy scan takes. *)
Lemma hex_run_app (h : string) (c : ascii) (rest : string) :
  all_chars is_lower_hex h = true ->
  is_lower_hex c = false ->
  hex_run (h ++ String c rest) = (h, String c rest).
Proof.
  intros Hall Hc; induction h as [|a h IH]; simpl in *.
  - now rewrite Hc.
  - apply andb_true_iff in Hall as [Ha Hall].
    now rewrite Ha, (IH Hall).
Qed.

Lemma tag_suffix_head (suf : string) :
  In suf tag_suffixes -> exists rest, suf = String "." rest.
Proof.
  unfold tag_suffixes; simpl.
  intros [<-|[<-|[<-|[<-|[]]]]]; eexists; reflexivity.
Qed.

Lemma tag_suffix_accepted (suf tail : string) :
  In suf tag_suffixes -> tail = "" \/ tail = LF ->
  existsb (fun x => ((suf ++ tail) =? x)%string || ((suf ++ tail) =? x ++ LF)%string)
    tag_suffixes = true.
Proof.
  unfold tag_suffixes; simpl.
  intros [<-|[<-|[<-|[<-|[]]]]] [->| ->]; reflexivity.
Qed.

Lemma tag_suffix_recognised (rest : string) :
  existsb (fun x => (rest =? x)%string || (rest =? x ++ LF)%string) tag_suffixes = true ->
  exists suf tail, rest = (suf ++ tail)%string /\ In suf tag_suffixes
                   /\ (tail = "" \/ tail = LF).
Proof.
  intros H. apply existsb_exists in H as (suf & Hin & H).
  apply orb_true_iff in H as [H|H]; apply String.eqb_eq in H; subst rest.
  - exists suf, ""%string. repeat split; auto.
    clear; induction suf; simpl; congruence.
  - exists suf, LF. auto.
Qed.

(** The matcher decides the language of the pattern and returns group 1. *)
Lemma tag_regex_match_spec (name hex : string) :
  tag_regex_match name = Some hex <-> tag_regex_matches name hex.
Proof.
  unfold tag_regex_match; split.
  - destruct (strip_prefix "sha256-" name) as [r|] eqn:Hp; [|discriminate].
    apply strip_prefix_sound in Hp; subst name.
    destruct (hex_run r) as [h rest] eqn:Hr.
    apply hex_run_sound in Hr as [-> Hall].
    destruct (h =? "")%string eqn:Hne; [discriminate|].
    destruct (existsb _ tag_suffixes) eqn:Hs; [|discriminate].
    intros [= ->].
    apply tag_suffix_recognised in Hs as (suf & tail & -> & Hin & Htail).
    constructor; auto.
    intros ->; discriminate.
  - intros [h suf tail Hne Hall Hin Htail].
    rewrite strip_prefix_app.
    destruct (tag_suffix_head _ Hin) as [rest ->].
    simpl (String "." rest ++ tail)%string.
    rewrite hex_run_app by (auto; reflexivity).
    destruct (h =? "")%string eqn:E; [apply String.eqb_eq in E; contradiction|].
    change (String "." (rest ++ tail)) with (String "." rest ++ tail)%string.
    now rewrite tag_suffix_accepted.
Qed.

(** ** Orphan detection in [remove_tags] *)

Lemma reported_tags_app (t1 t2 : list event) :
  reported_tags (t1 ++ t2) = reported_tags t1 ++ reported_tags t2.
Proof. apply flat_map_app. Qed.

(** [delete_image_tag] makes one call, whatever comes back. *)
Lemma delete_image_tag_world (tok : string) (ns nm t : pyval) (w : world) :
  snd (delete_image_tag tok ns nm t w)
  = mkWorld (net w) (S (calls w))
      (trace w ++ [Call (mkRequest DELETE (RepositoryTag ns nm t) [] tok) (net w (calls w))])
      (processed_repos_counter w).
Proof.
  unfold delete_image_tag, try_except_HTTPError, bind, urlopen, raise, ret.
  destruct (net w (calls w)) as [resp|e]; simpl.
  - destruct (negb (status resp =? 200) && negb (status resp =? 204)); reflexivity.
  - destruct e as [| | | |st rs| | | |]; try reflexivity.
    destruct (negb (st =? 404)); reflexivity.
Qed.

Lemma remove_tags_loop_reports (ds tags : list pyval) (tok : string) (ns nm : pyval)
    (dry : bool) (w : world) :
  exists evs,
    trace (snd (remove_tags_loop ds tags tok ns nm dry w)) = trace w ++ evs
    /\ forall t, In t (reported_tags evs) -> orphan_of ds tags t.
Proof.
  revert w; induction tags as [|tg rest IH]; intros w.
  - exists []. simpl. split; [now rewrite app_nil_r | intros t []].
  - assert (Hmono : forall t, orphan_of ds rest t -> orphan_of ds (tg :: rest) t).
    { intros t (n & hex & -> & Hm & (x & Hx & Hn) & Hd).
      exists n, hex; repeat split; auto. exists x; split; [now right | auto]. }
    assert (Hcont : forall (w1 : world) evs1,
              trace w1 = trace w ++ evs1 ->
              (forall t, In t (reported_tags evs1) -> orphan_of ds (tg :: rest) t) ->
              exists evs,
                trace (snd (remove_tags_loop ds rest tok ns nm dry w1)) = trace w ++ evs
                /\ forall t, In t (reported_tags evs) -> orphan_of ds (tg :: rest) t).
    { intros w1 evs1 Ht H1. destruct (IH w1) as (evs2 & Ht2 & H2).
      exists (evs1 ++ evs2). split.
      - now rewrite Ht2, Ht, app_assoc.
      - intros t Hin. rewrite reported_tags_app in Hin.
        apply in_app_or in Hin as [Hin|Hin]; auto. }
    assert (Hstop : exists evs : list event,
              trace w = trace w ++ evs
              /\ forall t, In t (reported_tags evs) -> orphan_of ds (tg :: rest) t).
    { exists []. split; [now rewrite app_nil_r | intros t []]. }
    simpl. unfold bind at 1. unfold lift at 1.
    destruct (py_getitem tg "name") as [v| |] eqn:Hname; simpl; auto.
    unfold bind at 1. unfold lift at 1.
    destruct (re_match v) as [m| |] eqn:Hmatch; simpl; auto.
    destruct v; try discriminate. simpl in Hmatch. injection Hmatch as <-.
    unfold bind at 1.
    destruct (tag_regex_match s) as [hex|] eqn:Hre.
    + destruct (str_in _ ds) eqn:Hin; simpl.
      * apply (Hcont w []); [now rewrite app_nil_r | intros t []].
      * assert (Horph : orphan_of ds (tg :: rest) (PStr s)).
        { exists s, hex. split; [reflexivity|]. split; [exact Hre|].
          split; [|exact Hin]. exists tg; split; [now left | exact Hname]. }
        destruct dry.
        -- unfold log; simpl.
           apply (Hcont _ [Log INFO (ShouldBeRemoved (PStr s) ns nm)]); [reflexivity|].
           simpl. intros t [<-|[]]; exact Horph.
        -- unfold bind at 1. unfold log at 1.
           pose proof (delete_image_tag_world tok ns nm (PStr s)
                         (add_event (Log INFO (RemovingTag (PStr s) ns nm)) w)) as Hd.
           destruct (delete_image_tag tok ns nm (PStr s) _) as [r w1]; simpl in Hd; subst w1.
           set (evs1 := [Log INFO (RemovingTag (PStr s) ns nm);
                         Call (mkRequest DELETE (RepositoryTag ns nm (PStr s)) [] tok)
                              (net w (calls w))]).
           assert (H1 : forall t, In t (reported_tags evs1) -> orphan_of ds (tg :: rest) t).
           { simpl. intros t [<-|[<-|[]]]; exact Horph. }
           destruct r; simpl.
           ++ apply (Hcont _ evs1); [simpl; now rewrite <- app_assoc | exact H1].
           ++ exists evs1. split; [now rewrite <- app_assoc | exact H1].
           ++ exists evs1. split; [now rewrite <- app_assoc | exact H1].
    + unfold log; simpl.
      apply (Hcont _ [Log DEBUG (NotSuffixTag (PStr s))]); [reflexivity|].
      simpl. intros t [].
Qed.

Lemma manifest_digests_covers (tags ds : list pyval) :
  manifest_digests tags = Ok ds ->
  forall image, In image tags ->
    exists d, In d ds /\ py_getitem image "manifest_digest" = Ok d.
Proof.
  revert ds; induction tags as [|x rest IH]; intros ds H image Hin; [destruct Hin|].
  simpl in H.
  destruct (py_getitem x "manifest_digest") as [d| |] eqn:Hx; try discriminate.
  destruct (manifest_digests rest) as [ds'| |]; try discriminate.
  injection H as <-.
  destruct Hin as [<-|Hin].
  - exists d; split; [now left | auto].
  - destruct (IH _ eq_refl _ Hin) as (d' & Hd' & Hg).
    exists d'; split; [now right | auto].
Qed.

Lemma str_in_false (s : string) (l : list pyval) :
  str_in s l = false -> ~ In (PStr s) l.
Proof.
  unfold str_in. intros H Hin.
  assert (existsb (str_eq s) l = true); [|congruence].
  apply existsb_exists. exists (PStr s); split; auto.
  simpl. apply String.eqb_refl.
Qed.

(** C1. Whatever the tag list, every tag name that [remove_tags] logs as
    removable, logs as being removed, or sends in a DELETE is the name of a
    tag of the list that matches
    [^sha256-([0-9a-f]+)(\.sbom|\.att|\.src|\.sig)$], and the digest
    [sha256:<group 1>] is the [manifest_digest] of no tag of the list.  A
    name outside the pattern, [latest] for one, is never reported. *)
Theorem remove_tags_reports_only_orphans
    (tags : list pyval) (quay_token : string) (namespace name : pyval) (dry_run : bool)
    (w : world) :
  exists evs,
    trace (snd (remove_tags tags quay_token namespace name dry_run w)) = trace w ++ evs
    /\ (forall t, In t (reported_tags evs) ->
          exists n hex,
            t = PStr n
            /\ tag_regex_matches n hex
            /\ (exists tg, In tg tags /\ py_getitem tg "name" = Ok (PStr n))
            /\ (forall image, In image tags ->
                  py_getitem image "manifest_digest" <> Ok (PStr ("sha256:" ++ hex))))
    /\ (forall n, (forall hex, ~ tag_regex_matches n hex) -> ~ In (PStr n) (reported_tags evs))
    /\ ~ In (PStr "latest") (reported_tags evs).
Proof.
  assert (Hmain : exists evs,
    trace (snd (remove_tags tags quay_token namespace name dry_run w)) = trace w ++ evs
    /\ (forall t, In t (reported_tags evs) ->
          exists n hex,
            t = PStr n
            /\ tag_regex_matches n hex
            /\ (exists tg, In tg tags /\ py_getitem tg "name" = Ok (PStr n))
            /\ (forall image, In image tags ->
                  py_getitem image "manifest_digest" <> Ok (PStr ("sha256:" ++ hex))))).
  { unfold remove_tags, bind, lift.
    destruct (manifest_digests tags) as [ds| |] eqn:Hds; simpl.
    - destruct (remove_tags_loop_reports ds tags quay_token namespace name dry_run w)
        as (evs & Ht & H).
      exists evs; split; [exact Ht|].
      intros t Hin. destruct (H t Hin) as (n & hex & -> & Hm & Htg & Hd).
      exists n, hex. repeat split; auto.
      + now apply tag_regex_match_spec.
      + intros image Himg Heq.
        destruct (manifest_digests_covers _ _ Hds _ Himg) as (d & Hdin & Hg).
        rewrite Hg in Heq. injection Heq as ->.
        now apply str_in_false in Hd.
    - exists []; split; [now rewrite app_nil_r | intros t []].
    - exists []; split; [now rewrite app_nil_r | intros t []]. }
  destruct Hmain as (evs & Ht & H).
  assert (Hno : forall n, (forall hex, ~ tag_regex_matches n hex) ->
                          ~ In (PStr n) (reported_tags evs)).
  { intros n Hn Hin. destruct (H _ Hin) as (n' & hex & [= <-] & Hm & _).
    exact (Hn hex Hm). }
  exists evs; repeat split; auto.
  apply Hno. intros hex Hm. apply tag_regex_match_spec in Hm. discriminate.
Qed.

(** C3. On the three tags [v1 / sha256:aaa], [sha256-aaa.sbom / sha256:bbb],
    [sha256-ccc.att / sha256:ddd], [remove_tags] selects [sha256-ccc.att]
    and nothing else, in a dry run and in a live run and whatever the
    registry answers; [sha256-aaa.sbom] is kept since [sha256:aaa] is the
    digest of [v1], although [sha256:bbb] is embedded in no tag name. *)
Theorem example_selects_only_ccc_att
    (quay_token : string) (namespace name : pyval) (responses : nat -> outcome) :
  reported_tags
    (trace (snd (remove_tags example_tags quay_token namespace name true (boot responses))))
  = [PStr "sha256-ccc.att"]
  /\ requests
       (trace (snd (remove_tags example_tags quay_token namespace name true (boot responses))))
     = []
  /\ requests
       (trace (snd (remove_tags example_tags quay_token namespace name false (boot responses))))
     = [mkRequest DELETE (RepositoryTag namespace name (PStr "sha256-ccc.att")) [] quay_token]
  /\ logged
       (trace (snd (remove_tags example_tags quay_token namespace name false (boot responses))))
     = [(DEBUG, NotSuffixTag (PStr "v1"));
        (INFO, RemovingTag (PStr "sha256-ccc.att") namespace name)]
  /\ manifest_digests example_tags
     = Ok [PStr "sha256:aaa"; PStr "sha256:bbb"; PStr "sha256:ddd"]
  /\ tag_regex_match "sha256-aaa.sbom" = Some "aaa"
  /\ tag_regex_match "sha256-ccc.att" = Some "ccc"
  /\ tag_regex_match "v1" = None
  /\ str_in "sha256:aaa" [PStr "sha256:aaa"; PStr "sha256:bbb"; PStr "sha256:ddd"] = true
  /\ str_in "sha256:ccc" [PStr "sha256:aaa"; PStr "sha256:bbb"; PStr "sha256:ddd"] = false
  /\ FindOrphanTags example_tags = [tag "sha256-ccc.att" "sha256:ddd"].
Proof.
  split; [reflexivity|]. split; [reflexivity|].
  assert (Hlive :
    trace (snd (remove_tags example_tags quay_token namespace name false (boot responses)))
    = [Log DEBUG (NotSuffixTag (PStr "v1"));
       Log INFO (RemovingTag (PStr "sha256-ccc.att") namespace name);
       Call (mkRequest DELETE (RepositoryTag namespace name (PStr "sha256-ccc.att")) []
               quay_token) (responses 0%nat)]).
  { cbv -[Z.eqb]. destruct (responses 0%nat) as [[st rs b]|e].
    - destruct (st =? 200), (st =? 204); reflexivity.
    - destruct e as [| | | |st rs| | | |]; try reflexivity.
      destruct (st =? 404); reflexivity. }
  rewrite Hlive. repeat split; reflexivity.
Qed.

(** ** [delete_image_tag] *)

(** C4. [delete_image_tag] returns normally exactly when the status of the
    response is 200, 204 or 404; under any other status it raises an error
    that carries the reason of the response (with the status, when
    [urlopen] raised it).  Either way it has made the one DELETE call and
    done nothing else, so a 404 has no further effect. *)
Theorem delete_image_tag_status
    (quay_token : string) (namespace name tg : pyval) (w : world)
    (st : Z) (rs : string) (b : option pyval)
    (Hnet : net w (calls w) = urlopen_outcome st rs b) :
  (fst (delete_image_tag quay_token namespace name tg w) = Ok tt
   <-> st = 200 \/ st = 204 \/ st = 404)
  /\ (~ (st = 200 \/ st = 204 \/ st = 404) ->
      fst (delete_image_tag quay_token namespace name tg w) = Raise (RuntimeError rs)
      \/ fst (delete_image_tag quay_token namespace name tg w) = Raise (HTTPError st rs))
  /\ snd (delete_image_tag quay_token namespace name tg w)
     = mkWorld (net w) (S (calls w))
         (trace w ++ [Call (mkRequest DELETE (RepositoryTag namespace name tg) [] quay_token)
                        (urlopen_outcome st rs b)])
         (processed_repos_counter w).
Proof.
  split; [|split].
  - unfold delete_image_tag, try_except_HTTPError, bind, urlopen, raise, ret.
    rewrite Hnet. unfold urlopen_outcome.
    destruct ((200 <=? st) && (st <? 300)) eqn:H2xx; simpl.
    + destruct (st =? 200) eqn:E200; simpl; [split; [lia | reflexivity]|].
      destruct (st =? 204) eqn:E204; simpl; [split; [lia | reflexivity]|].
      split; [discriminate | lia].
    + destruct (st =? 404) eqn:E404; simpl; [split; [lia | reflexivity]|].
      split; [discriminate | lia].
  - intros Hst.
    unfold delete_image_tag, try_except_HTTPError, bind, urlopen, raise, ret.
    rewrite Hnet. unfold urlopen_outcome.
    destruct ((200 <=? st) && (st <? 300)) eqn:H2xx; simpl.
    + destruct (st =? 200) eqn:E200; simpl; [lia|].
      destruct (st =? 204) eqn:E204; simpl; [lia|]. now left.
    + destruct (st =? 404) eqn:E404; simpl; [lia|]. now right.
  - rewrite delete_image_tag_world, Hnet. reflexivity.
Qed.

Lemma delete_image_tag_status_witness :
  fst (delete_image_tag "token" (PStr "acme") (PStr "app") (PStr "sha256-ccc.att")
         (boot (script [urlopen_outcome 404 "Not Found" None]))) = Ok tt
  /\ fst (delete_image_tag "token" (PStr "acme") (PStr "app") (PStr "sha256-ccc.att")
            (boot (script [urlopen_outcome 500 "Internal Server Error" None])))
     = Raise (HTTPError 500 "Internal Server Error").
Proof.
  split.
  - apply (proj1 (delete_image_tag_status "token" (PStr "acme") (PStr "app")
                    (PStr "sha256-ccc.att")
                    (boot (script [urlopen_outcome 404 "Not Found" None]))
                    404 "Not Found" None eq_refl)).
    right; right; reflexivity.
  - reflexivity.
Defined.

(** ** The digest collection comes first *)

Lemma manifest_digests_missing (tags : list pyval) :
  Forall is_dict tags ->
  Exists (fun t => py_getitem t "manifest_digest" = Raise (KeyError "manifest_digest")) tags ->
  manifest_digests tags = Raise (KeyError "manifest_digest").
Proof.
  induction tags as [|t rest IH]; intros Hd He; [inversion He|].
  inversion Hd as [|? ? [d ->] Hrest]; subst.
  simpl. destruct (assoc "manifest_digest" d) as [v|] eqn:Ha; [|reflexivity].
  inversion He as [? ? Hhere|? ? Hlater]; subst.
  - simpl in Hhere. rewrite Ha in Hhere. discriminate.
  - now rewrite (IH Hrest Hlater).
Qed.

(** C9. When the tags are dicts and one of them has no [manifest_digest],
    [remove_tags] raises [KeyError] while it builds the digest collection:
    nothing has been logged and no call has been made, whatever the names
    of the tags are. *)
Theorem remove_tags_requires_manifest_digest
    (tags : list pyval) (quay_token : string) (namespace name : pyval) (dry_run : bool)
    (w : world)
    (Hdicts : Forall is_dict tags)
    (Hmissing : Exists (fun t => exists d, t = PDict d /\ assoc "manifest_digest" d = None)
                  tags) :
  remove_tags tags quay_token namespace name dry_run w
  = (Raise (KeyError "manifest_digest"), w).
Proof.
  unfold remove_tags, bind, lift.
  rewrite manifest_digests_missing; [reflexivity | exact Hdicts |].
  apply Exists_exists in Hmissing as (t & Hin & d & -> & Ha).
  apply Exists_exists. exists (PDict d); split; [exact Hin|].
  simpl. now rewrite Ha.
Qed.

Lemma remove_tags_requires_manifest_digest_witness :
  remove_tags [PDict [("name", PStr "latest")]; tag "sha256-ccc.att" "sha256:ddd"]
    "token" (PStr "acme") (PStr "app") false (boot (script []))
  = (Raise (KeyError "manifest_digest"), boot (script [])).
Proof.
  apply remove_tags_requires_manifest_digest.
  - repeat constructor; eexists; reflexivity.
  - apply Exists_cons_hd. eexists; split; reflexivity.
Defined.

(** ** One orphan: dry run and live run *)

Lemma info_logs_app (t1 t2 : list event) :
  info_logs (t1 ++ t2) = info_logs t1 ++ info_logs t2.
Proof. apply flat_map_app. Qed.

Lemma requests_app (t1 t2 : list event) :
  requests (t1 ++ t2) = requests t1 ++ requests t2.
Proof. apply flat_map_app. Qed.

Lemma remove_tags_loop_named (ds : list pyval) (tg : pyval) (rest : list pyval)
    (tok : string) (ns nm : pyval) (dry : bool) (s : string) (w : world) :
  py_getitem tg "name" = Ok (PStr s) ->
  remove_tags_loop ds (tg :: rest) tok ns nm dry w
  = bind
      match tag_regex_match s with
      | Some group1 =>
          if negb (str_in ("sha256:" ++ group1) ds) then
            if dry then log INFO (ShouldBeRemoved (PStr s) ns nm)
            else bind (log INFO (RemovingTag (PStr s) ns nm))
                   (fun _ => delete_image_tag tok ns nm (PStr s))
          else ret tt
      | None => log DEBUG (NotSuffixTag (PStr s))
      end
      (fun _ => remove_tags_loop ds rest tok ns nm dry) w.
Proof.
  intros H. cbn [remove_tags_loop]. unfold bind at 1. unfold lift at 1. rewrite H.
  unfold bind at 1. unfold lift at 1. reflexivity.
Qed.

(** Tags that are not selected leave only DEBUG records. *)
Lemma remove_tags_loop_quiet (ds tags : list pyval) (tok : string) (ns nm : pyval)
    (dry : bool) (w : world) :
  Forall tag_fields tags ->
  filter (selected ds) tags = [] ->
  exists evs,
    remove_tags_loop ds tags tok ns nm dry w
    = (Ok tt, mkWorld (net w) (calls w) (trace w ++ evs) (processed_repos_counter w))
    /\ info_logs evs = [] /\ requests evs = [].
Proof.
  revert w; induction tags as [|tg rest IH]; intros w Hf Hsel.
  - exists []. rewrite app_nil_r. destruct w; repeat split.
  - inversion Hf as [|? ? (n & d & Hn & _) Hrest]; subst.
    simpl in Hsel. destruct (selected ds tg) eqn:Hs; [discriminate|].
    rewrite (remove_tags_loop_named _ _ _ _ _ _ _ n _ Hn).
    unfold selected in Hs. rewrite Hn in Hs.
    unfold bind.
    destruct (tag_regex_match n) as [hex|].
    + rewrite Hs. cbn [ret].
      destruct (IH w Hrest Hsel) as (evs & -> & Hi & Hr).
      exists evs; repeat split; auto.
    + unfold log. cbn [add_event].
      destruct (IH (add_event (Log DEBUG (NotSuffixTag (PStr n))) w) Hrest Hsel)
        as (evs & -> & Hi & Hr).
      exists (Log DEBUG (NotSuffixTag (PStr n)) :: evs). simpl.
      rewrite <- app_assoc. repeat split; auto.
Qed.

Lemma remove_tags_loop_one (ds tags : list pyval) (tok : string) (ns nm : pyval)
    (dry : bool) (w : world) (t : pyval) (n : string) :
  Forall tag_fields tags ->
  filter (selected ds) tags = [t] ->
  py_getitem t "name" = Ok (PStr n) ->
  exists r evs,
    remove_tags_loop ds tags tok ns nm dry w
    = (r, mkWorld (net w) (if dry then calls w else S (calls w)) (trace w ++ evs)
            (processed_repos_counter w))
    /\ info_logs evs
       = [if dry then ShouldBeRemoved (PStr n) ns nm else RemovingTag (PStr n) ns nm]
    /\ requests evs
       = (if dry then []
          else [mkRequest DELETE (RepositoryTag ns nm (PStr n)) [] tok])
    /\ (dry = true -> r = Ok tt).
Proof.
  revert w; induction tags as [|tg rest IH]; intros w Hf Hsel Ht; [discriminate|].
  inversion Hf as [|? ? (n' & d & Hn & _) Hrest]; subst.
  rewrite (remove_tags_loop_named _ _ _ _ _ _ _ n' _ Hn).
  simpl in Hsel. destruct (selected ds tg) eqn:Hs.
  - injection Hsel as -> Hnone.
    rewrite Ht in Hn. injection Hn as <-.
    unfold selected in Hs. rewrite Ht in Hs.
    unfold bind at 1.
    destruct (tag_regex_match n) as [hex|]; [|discriminate].
    rewrite Hs. destruct dry.
    + unfold log.
      destruct (remove_tags_loop_quiet ds rest tok ns nm true
                  (add_event (Log INFO (ShouldBeRemoved (PStr n) ns nm)) w) Hrest Hnone)
        as (evs & -> & Hi & Hr).
      exists (Ok tt), (Log INFO (ShouldBeRemoved (PStr n) ns nm) :: evs). simpl.
      rewrite <- app_assoc, Hi, Hr. repeat split.
    + unfold bind at 1. unfold log at 1.
      pose proof (delete_image_tag_world tok ns nm (PStr n)
                    (add_event (Log INFO (RemovingTag (PStr n) ns nm)) w)) as Hd.
      destruct (delete_image_tag tok ns nm (PStr n) _) as [r w1]; simpl in Hd; subst w1.
      set (evs1 := [Log INFO (RemovingTag (PStr n) ns nm);
                    Call (mkRequest DELETE (RepositoryTag ns nm (PStr n)) [] tok)
                         (net w (calls w))]).
      destruct r as [[]|e|].
      * match goal with
        | |- context [remove_tags_loop ds rest tok ns nm false ?w1] =>
            destruct (remove_tags_loop_quiet ds rest tok ns nm false w1 Hrest Hnone)
              as (evs & -> & Hi & Hr)
        end.
        exists (Ok tt), (evs1 ++ evs). simpl.
        rewrite <- !app_assoc, Hi, Hr. simpl. repeat split; discriminate.
      * exists (Raise e), evs1. simpl. rewrite <- app_assoc. repeat split; discriminate.
      * exists OutOfFuel, evs1. simpl. rewrite <- app_assoc. repeat split; discriminate.
  - unfold selected in Hs. rewrite Hn in Hs.
    unfold bind at 1.
    destruct (tag_regex_match n') as [hex|].
    + rewrite Hs. cbn [ret]. apply (IH w Hrest Hsel Ht).
    + unfold log.
      destruct (IH (add_event (Log DEBUG (NotSuffixTag (PStr n'))) w) Hrest Hsel Ht)
        as (r & evs & -> & Hi & Hr & Hok).
      exists r, (Log DEBUG (NotSuffixTag (PStr n')) :: evs). simpl.
      rewrite <- app_assoc. repeat split; auto.
Qed.

Lemma str_in_digests (tags ds : list pyval) (s : string) :
  manifest_digests tags = Ok ds ->
  str_in s ds
  = existsb (fun image =>
               match py_getitem image "manifest_digest" with
               | Ok d => str_eq s d
               | _ => false
               end) tags.
Proof.
  revert ds; induction tags as [|x rest IH]; intros ds H; simpl in H.
  - injection H as <-. reflexivity.
  - destruct (py_getitem x "manifest_digest") as [d| |] eqn:Hx; try discriminate.
    destruct (manifest_digests rest) as [ds'| |]; try discriminate.
    injection H as <-. simpl. rewrite Hx. f_equal. now apply IH.
Qed.

Lemma manifest_digests_total (tags : list pyval) :
  Forall tag_fields tags -> exists ds, manifest_digests tags = Ok ds.
Proof.
  induction 1 as [|t rest (n & d & _ & Hd) _ [ds IH]]; simpl.
  - now exists [].
  - rewrite Hd, IH. now exists (d :: ds).
Qed.

(** C5. For a list of tags with their fields in which the detector finds
    exactly one orphan: a dry run returns normally, writes one
    "should be removed" message and makes no call at all; a live run
    writes one "Removing tag" message and makes one DELETE call, for the
    name of that tag. *)
Theorem remove_tags_one_orphan
    (tags : list pyval) (quay_token : string) (namespace name : pyval) (w : world)
    (t : pyval) (n : string)
    (Hfields : Forall tag_fields tags)
    (Hone : FindOrphanTags tags = [t])
    (Hname : py_getitem t "name" = Ok (PStr n)) :
  (exists evs,
     remove_tags tags quay_token namespace name true w
     = (Ok tt, mkWorld (net w) (calls w) (trace w ++ evs) (processed_repos_counter w))
     /\ info_logs evs = [ShouldBeRemoved (PStr n) namespace name]
     /\ requests evs = [])
  /\ (exists r evs,
        remove_tags tags quay_token namespace name false w
        = (r, mkWorld (net w) (S (calls w)) (trace w ++ evs) (processed_repos_counter w))
        /\ info_logs evs = [RemovingTag (PStr n) namespace name]
        /\ requests evs
           = [mkRequest DELETE (RepositoryTag namespace name (PStr n)) [] quay_token]).
Proof.
  destruct (manifest_digests_total tags Hfields) as [ds Hds].
  assert (Hsel : filter (selected ds) tags = [t]).
  { rewrite <- Hone. unfold FindOrphanTags. apply filter_ext. intros x.
    unfold selected. destruct (py_getitem x "name") as [[| | |s| |]| |]; try reflexivity.
    destruct (tag_regex_match s); [|reflexivity].
    now rewrite (str_in_digests tags ds _ Hds). }
  unfold remove_tags, bind, lift. rewrite Hds. split.
  - destruct (remove_tags_loop_one ds tags quay_token namespace name true w t n
                Hfields Hsel Hname) as (r & evs & -> & Hi & Hr & Hok).
    rewrite (Hok eq_refl). exists evs. repeat split; assumption.
  - destruct (remove_tags_loop_one ds tags quay_token namespace name false w t n
                Hfields Hsel Hname) as (r & evs & -> & Hi & Hr & _).
    exists r, evs. repeat split; assumption.
Qed.

Lemma remove_tags_one_orphan_witness :
  (exists evs,
     remove_tags example_tags "token" (PStr "acme") (PStr "app") true (boot (script []))
     = (Ok tt, mkWorld (script []) 0 ([] ++ evs) 0)
     /\ info_logs evs = [ShouldBeRemoved (PStr "sha256-ccc.att") (PStr "acme") (PStr "app")]
     /\ requests evs = [])
  /\ (exists r evs,
        remove_tags example_tags "token" (PStr "acme") (PStr "app") false (boot (script []))
        = (r, mkWorld (script []) 1 ([] ++ evs) 0)
        /\ info_logs evs = [RemovingTag (PStr "sha256-ccc.att") (PStr "acme") (PStr "app")]
        /\ requests evs
           = [mkRequest DELETE (RepositoryTag (PStr "acme") (PStr "app")
                                  (PStr "sha256-ccc.att")) [] "token"]).
Proof.
  apply (remove_tags_one_orphan example_tags "token" (PStr "acme") (PStr "app")
           (boot (script [])) (tag "sha256-ccc.att" "sha256:ddd") "sha256-ccc.att").
  - repeat constructor; do 2 eexists; split; reflexivity.
  - reflexivity.
  - reflexivity.
Defined.

(** ** Listing the tags of a repository *)

(** One iteration of the loop on a 200 response with a JSON object. *)
Lemma get_quay_tags_loop_step (fuel : nat) (tok : string) (ns nm np : pyval)
    (acc : list pyval) (w : world) (rs : string) (d : list (string * pyval))
    (items : list pyval) :
  net w (calls w) = Returned (mkResponse 200 rs (Some (PDict d))) ->
  py_iter (dict_get d "tags" (PList [])) = Ok items ->
  get_quay_tags_loop (S fuel) tok ns nm np acc w
  = if negb (truthy (dict_get d "tags" (PList []))) then
      (Ok (acc ++ items), add_event (Log DEBUG NoTagsFound) (called (tags_request tok ns nm np) w))
    else if truthy (dict_get d "has_additional" (PBool false)) then
      match py_add1 (dict_get d "page" PNone) with
      | Ok next =>
          get_quay_tags_loop fuel tok ns nm next (acc ++ items)
            (called (tags_request tok ns nm np) w)
      | Raise e => (Raise e, called (tags_request tok ns nm np) w)
      | OutOfFuel => (OutOfFuel, called (tags_request tok ns nm np) w)
      end
    else (Ok (acc ++ items), called (tags_request tok ns nm np) w).
Proof.
  intros Hnet Hitems.
  cbn [get_quay_tags_loop].
  unfold bind at 1. unfold urlopen. rewrite Hnet.
  unfold bind at 1. cbn [status negb Z.eqb ret].
  change (200 =? 200) with true. cbn [negb ret].
  unfold bind at 1. unfold json_loads. cbn [body ret].
  unfold bind at 1. unfold lift at 1. cbn [py_get].
  unfold bind at 1. unfold lift at 1. rewrite Hitems.
  fold (tags_request tok ns nm np). rewrite <- Hnet.
  fold (called (tags_request tok ns nm np) w).
  destruct (negb (truthy (dict_get d "tags" (PList [])))).
  - reflexivity.
  - unfold bind at 1. unfold lift at 1.
    unfold bind at 1. unfold lift at 1.
    destruct (truthy (dict_get d "has_additional" (PBool false))); [|reflexivity].
    unfold bind at 1. unfold lift at 1.
    destruct (py_add1 (dict_get d "page" PNone)); reflexivity.
Qed.

(** C10. On a 200 response with a non-empty batch of tags and a true
    [has_additional] but no [page], [get_quay_tags] raises [TypeError]
    ([None + 1]) right after that call.  When the batch is empty or
    [has_additional] is false, the loop returns the tags collected so far
    with this batch, whatever the response says about [page]. *)
Theorem get_quay_tags_page_field
    (fuel : nat) (quay_token : string) (namespace name next_page : pyval)
    (all_tags : list pyval) (w : world) (rs : string) (d : list (string * pyval))
    (batch : list pyval)
    (Hnet : net w (calls w) = Returned (mkResponse 200 rs (Some (PDict d))))
    (Htags : dict_get d "tags" (PList []) = PList batch) :
  (batch <> [] ->
   truthy (dict_get d "has_additional" (PBool false)) = true ->
   assoc "page" d = None ->
   get_quay_tags_loop (S fuel) quay_token namespace name next_page all_tags w
   = (Raise TypeError, called (tags_request quay_token namespace name next_page) w))
  /\ (batch = [] \/ truthy (dict_get d "has_additional" (PBool false)) = false ->
      fst (get_quay_tags_loop (S fuel) quay_token namespace name next_page all_tags w)
      = Ok (all_tags ++ batch)
      /\ calls (snd (get_quay_tags_loop (S fuel) quay_token namespace name next_page
                       all_tags w))
         = S (calls w)).
Proof.
  assert (Hiter : py_iter (dict_get d "tags" (PList [])) = Ok batch)
    by now rewrite Htags.
  rewrite (get_quay_tags_loop_step fuel quay_token namespace name next_page all_tags w
             rs d batch Hnet Hiter).
  rewrite Htags. split.
  - intros Hne Hadd Hpage.
    destruct batch as [|x batch]; [contradiction|]. cbn [truthy negb].
    rewrite Hadd. unfold dict_get. rewrite Hpage. reflexivity.
  - intros [-> | Hadd].
    + cbn [truthy negb]. split; reflexivity.
    + destruct batch as [|x batch]; cbn [truthy negb].
      * split; reflexivity.
      * rewrite Hadd. split; reflexivity.
Qed.

Lemma get_quay_tags_page_field_witness :
  get_quay_tags_loop 1 "token" (PStr "acme") (PStr "app") PNone []
    (boot (script [ok_json [("tags", PList [tag "v1" "sha256:aaa"]);
                            ("has_additional", PBool true)]]))
  = (Raise TypeError,
     called (tags_request "token" (PStr "acme") (PStr "app") PNone)
       (boot (script [ok_json [("tags", PList [tag "v1" "sha256:aaa"]);
                               ("has_additional", PBool true)]])))
  /\ fst (get_quay_tags_loop 1 "token" (PStr "acme") (PStr "app") PNone []
            (boot (script [ok_json [("tags", PList [tag "v1" "sha256:aaa"]);
                                    ("has_additional", PBool false)]])))
     = Ok ([] ++ [tag "v1" "sha256:aaa"]).
Proof.
  split.
  - apply (proj1 (get_quay_tags_page_field 0 "token" (PStr "acme") (PStr "app") PNone []
                    (boot (script [ok_json [("tags", PList [tag "v1" "sha256:aaa"]);
                                            ("has_additional", PBool true)]]))
                    "OK" _ [tag "v1" "sha256:aaa"] eq_refl eq_refl)).
    + discriminate.
    + reflexivity.
    + reflexivity.
  - apply (proj2 (get_quay_tags_page_field 0 "token" (PStr "acme") (PStr "app") PNone []
                    (boot (script [ok_json [("tags", PList [tag "v1" "sha256:aaa"]);
                                            ("has_additional", PBool false)]]))
                    "OK" _ [tag "v1" "sha256:aaa"] eq_refl eq_refl)).
    right; reflexivity.
Defined.

Lemma tag_listing_lengths (responses : nat -> outcome) (k : nat) (page : pyval)
    (batches : list (list pyval)) (pages : list pyval) :
  tag_listing responses k page batches pages -> List.length pages = List.length batches.
Proof. induction 1; simpl; congruence. Qed.

Lemma get_quay_tags_loop_listing (tok : string) (ns nm : pyval)
    (batches : list (list pyval)) (pages : list pyval) :
  forall (fuel : nat) (page : pyval) (acc : list pyval) (w : world),
    tag_listing (net w) (calls w) page batches pages ->
    (List.length batches <= fuel)%nat ->
    exists evs,
      get_quay_tags_loop fuel tok ns nm page acc w
      = (Ok (acc ++ List.concat batches),
         mkWorld (net w) (calls w + List.length batches) (trace w ++ evs)
           (processed_repos_counter w))
      /\ requests evs = map (tags_request tok ns nm) pages.
Proof.
  intros fuel page acc w H. revert fuel acc.
  remember (net w) as responses eqn:Hr. remember (calls w) as k eqn:Hk.
  revert w Hr Hk.
  induction H as [k page d batch (rs & Hresp & Htags) Hlast
                 |k page d batch next batches pages (rs & Hresp & Htags) Hne Hadd Hnext H IH];
    intros w Hr Hk fuel acc Hfuel; subst responses k.
  - destruct fuel as [|fuel]; [simpl in Hfuel; lia|].
    assert (Hiter : py_iter (dict_get d "tags" (PList [])) = Ok batch) by now rewrite Htags.
    rewrite (get_quay_tags_loop_step fuel tok ns nm page acc w rs d batch Hresp Hiter).
    rewrite Htags. simpl List.concat. rewrite app_nil_r.
    destruct batch as [|x batch]; cbn [truthy negb].
    + exists [Call (tags_request tok ns nm page) (net w (calls w)); Log DEBUG NoTagsFound].
      split; [|reflexivity].
      unfold add_event, called; cbn [net calls trace processed_repos_counter List.length].
      rewrite <- app_assoc. f_equal. f_equal. lia.
    + destruct Hlast as [Hnil|Hadd]; [discriminate|]. rewrite Hadd.
      exists [Call (tags_request tok ns nm page) (net w (calls w))].
      split; [|reflexivity].
      unfold called; cbn [List.length]. f_equal. f_equal. lia.
  - destruct fuel as [|fuel]; [simpl in Hfuel; lia|].
    assert (Hiter : py_iter (dict_get d "tags" (PList [])) = Ok batch) by now rewrite Htags.
    rewrite (get_quay_tags_loop_step fuel tok ns nm page acc w rs d batch Hresp Hiter).
    rewrite Htags. destruct batch as [|x batch]; [contradiction|]. cbn [truthy negb].
    rewrite Hadd, Hnext.
    destruct (IH (called (tags_request tok ns nm page) w) eq_refl eq_refl fuel
                (acc ++ x :: batch)) as (evs & -> & Hreq).
    { simpl in Hfuel. lia. }
    exists (Call (tags_request tok ns nm page) (net w (calls w)) :: evs).
    split.
    + unfold called; cbn [net calls trace processed_repos_counter List.length List.concat].
      rewrite <- !app_assoc. f_equal. f_equal. lia.
    + simpl. now rewrite Hreq.
Qed.

(** C2, as the code has it. When the registry answers a listing with the
    batches [batches] (every page but the last with tags, a true
    [has_additional] and a [page]; the last without tags or with a false
    [has_additional]), [get_quay_tags] returns the concatenation of the
    batches in page order, with no deduplication.  It makes one call per
    page, each with [limit=100] and [onlyActiveTags=True], the first
    without [page] and each later one with the [page] of the previous
    response plus 1, and stops after the last page. *)
Theorem get_quay_tags_concatenates_pages
    (fuel : nat) (quay_token : string) (namespace name : pyval) (w : world)
    (batches : list (list pyval)) (pages : list pyval)
    (Hlisting : tag_listing (net w) (calls w) PNone batches pages)
    (Hfuel : (List.length batches <= fuel)%nat) :
  exists evs,
    get_quay_tags fuel quay_token namespace name w
    = (Ok (List.concat batches),
       mkWorld (net w) (calls w + List.length batches) (trace w ++ evs)
         (processed_repos_counter w))
    /\ requests evs = map (tags_request quay_token namespace name) pages
    /\ List.length pages = List.length batches
    /\ hd PNone pages = PNone.
Proof.
  destruct (get_quay_tags_loop_listing quay_token namespace name batches pages
              fuel PNone [] w Hlisting Hfuel) as (evs & Heq & Hreq).
  exists evs. repeat split; auto.
  - eapply tag_listing_lengths; eassumption.
  - inversion Hlisting; reflexivity.
Qed.

Lemma get_quay_tags_concatenates_pages_witness :
  exists evs,
    get_quay_tags 2 "token" (PStr "acme") (PStr "app") (boot repeated_tag_pages)
    = (Ok (List.concat [[tag "v1" "sha256:aaa"]; [tag "v1" "sha256:aaa"]]),
       mkWorld repeated_tag_pages (0 + 2) ([] ++ evs) 0)
    /\ requests evs
       = map (tags_request "token" (PStr "acme") (PStr "app")) [PNone; PInt 2]
    /\ List.length [PNone; PInt 2] = List.length [[tag "v1" "sha256:aaa"]; [tag "v1" "sha256:aaa"]]
    /\ hd PNone [PNone; PInt 2] = PNone.
Proof.
  apply (get_quay_tags_concatenates_pages 2 "token" (PStr "acme") (PStr "app")
           (boot repeated_tag_pages)
           [[tag "v1" "sha256:aaa"]; [tag "v1" "sha256:aaa"]] [PNone; PInt 2]).
  - eapply tag_listing_more.
    + eexists; split; reflexivity.
    + discriminate.
    + reflexivity.
    + reflexivity.
    + eapply tag_listing_last.
      * eexists; split; reflexivity.
      * right; reflexivity.
  - simpl; lia.
Defined.

(** The list [get_quay_tags] returns can hold a tag twice: it is not
    deduplicated. *)
Lemma get_quay_tags_keeps_duplicates :
  fst (get_quay_tags 2 "token" (PStr "acme") (PStr "app") (boot repeated_tag_pages))
  = Ok [tag "v1" "sha256:aaa"; tag "v1" "sha256:aaa"]
  /\ ~ NoDup [tag "v1" "sha256:aaa"; tag "v1" "sha256:aaa"].
Proof.
  split; [reflexivity|].
  intros H. inversion H as [|x l Hnotin _]; subst.
  apply Hnotin. now left.
Qed.

(** ** Listing the repositories of a namespace *)

(** One pass from the top of the loop on a 200 response with a JSON
    object. *)
Lemma fetch_image_repos_page_step (tok ns : string) (cursor : pyval) (w : world)
    (rs : string) (d : list (string * pyval)) :
  net w (calls w) = Returned (mkResponse 200 rs (Some (PDict d))) ->
  fetch_image_repos_page tok ns cursor w
  = if negb (truthy (dict_get d "repositories" (PList []))) then
      (Ok (None, Finished),
       add_event (Log DEBUG NoImageRepository) (called (repos_request tok ns cursor) w))
    else
      (Ok (Some (dict_get d "repositories" (PList [])), Suspended (PDict d)),
       called (repos_request tok ns cursor) w).
Proof.
  intros Hnet. unfold fetch_image_repos_page.
  unfold bind at 1. unfold urlopen. rewrite Hnet.
  unfold bind at 1. cbn [status].
  change (200 =? 200) with true. cbn [negb ret].
  unfold bind at 1. unfold json_loads. cbn [body ret].
  unfold bind at 1. unfold lift at 1. cbn [py_get].
  fold (repos_request tok ns cursor). rewrite <- Hnet.
  fold (called (repos_request tok ns cursor) w).
  destruct (negb (truthy (dict_get d "repositories" (PList [])))); reflexivity.
Qed.

Lemma drain_page_listing (tok ns : string) (batches cursors : list pyval) :
  forall (fuel : nat) (cursor : pyval) (w : world),
    repo_listing (net w) (calls w) cursor batches cursors ->
    (List.length batches <= fuel)%nat ->
    exists evs,
      drain_page fuel tok ns cursor w
      = (Ok batches,
         mkWorld (net w) (calls w + List.length cursors) (trace w ++ evs)
           (processed_repos_counter w))
      /\ requests evs = map (repos_request tok ns) cursors.
Proof.
  intros fuel cursor w H. revert fuel.
  remember (net w) as responses eqn:Hr. remember (calls w) as k eqn:Hk.
  revert w Hr Hk.
  induction H as [k cursor d repos (rs & Hresp & Hrepos) Hfalse
                 |k cursor d repos (rs & Hresp & Hrepos) Htrue Hnone
                 |k cursor d repos next batches cursors (rs & Hresp & Hrepos) Htrue
                    Hnext Hsome H IH];
    intros w Hr Hk fuel Hfuel; subst responses k; unfold drain_page, bind at 1;
    rewrite (fetch_image_repos_page_step tok ns cursor w rs d Hresp), Hrepos.
  - rewrite Hfalse. cbn [negb ret].
    exists [Call (repos_request tok ns cursor) (net w (calls w));
            Log DEBUG NoImageRepository].
    split; [|reflexivity].
    unfold add_event, called; cbn [net calls trace processed_repos_counter List.length].
    unfold ret. rewrite <- app_assoc. f_equal. f_equal. lia.
  - rewrite Htrue. cbn [negb].
    destruct fuel as [|fuel]; [simpl in Hfuel; lia|].
    cbn [fetch_image_repos_from fetch_image_repos_next].
    unfold bind, lift, ret. cbn [py_get]. rewrite Hnone.
    exists [Call (repos_request tok ns cursor) (net w (calls w))].
    split; [|reflexivity].
    unfold called; cbn [List.length]. f_equal. f_equal. lia.
  - rewrite Htrue. cbn [negb].
    destruct fuel as [|fuel]; [simpl in Hfuel; lia|].
    destruct (IH (called (repos_request tok ns cursor) w) eq_refl eq_refl fuel)
      as (evs & Hdrain & Hreq).
    { simpl in Hfuel. lia. }
    assert (Hfrom : fetch_image_repos_from (S fuel) tok ns (Suspended (PDict d))
                      (called (repos_request tok ns cursor) w)
                    = drain_page fuel tok ns next (called (repos_request tok ns cursor) w)).
    { cbn [fetch_image_repos_from fetch_image_repos_next].
      unfold bind at 2. unfold lift at 1. cbn [py_get]. rewrite Hnext.
      destruct next; try reflexivity. contradiction. }
    unfold bind at 1. rewrite Hfrom, Hdrain.
    exists (Call (repos_request tok ns cursor) (net w (calls w)) :: evs).
    split.
    + unfold ret, called; cbn [net calls trace processed_repos_counter List.length].
      rewrite <- !app_assoc. f_equal. f_equal. lia.
    + simpl. now rewrite Hreq.
Qed.

(** C7. When the registry answers the listing of a namespace with a run
    of pages (every page before the last with a batch and a [next_page];
    the last with an empty batch or with no [next_page]),
    [fetch_image_repos] yields the batches as received, in page order and
    without the empty one, and then stops.  It makes one call per page,
    the first without [next_page] and each later one with the
    [next_page] of the previous response. *)
Theorem fetch_image_repos_yields_pages
    (fuel : nat) (access_token namespace : string) (w : world)
    (batches cursors : list pyval)
    (Hlisting : repo_listing (net w) (calls w) PNone batches cursors)
    (Hfuel : (List.length batches < fuel)%nat) :
  exists evs,
    fetch_image_repos fuel access_token namespace w
    = (Ok batches,
       mkWorld (net w) (calls w + List.length cursors) (trace w ++ evs)
         (processed_repos_counter w))
    /\ requests evs = map (repos_request access_token namespace) cursors
    /\ hd PNone cursors = PNone
    /\ Forall (fun repos => truthy repos = true) batches.
Proof.
  destruct fuel as [|fuel]; [lia|].
  destruct (drain_page_listing access_token namespace batches cursors fuel PNone w Hlisting)
    as (evs & Hdrain & Hreq); [lia|].
  exists evs. repeat split; auto.
  - inversion Hlisting; reflexivity.
  - clear -Hlisting. induction Hlisting; auto.
Qed.

Lemma fetch_image_repos_yields_pages_witness :
  exists evs,
    fetch_image_repos 4 "token" "acme" (boot three_repo_pages)
    = (Ok [PList [repo "acme" "app"];
           PList [repo "acme" "db"; repo "acme" "web"];
           PList [repo "acme" "tools"]],
       mkWorld three_repo_pages (0 + List.length [PNone; PStr "c1"; PStr "c2"])
         ([] ++ evs) 0)
    /\ requests evs = map (repos_request "token" "acme") [PNone; PStr "c1"; PStr "c2"]
    /\ hd PNone [PNone; PStr "c1"; PStr "c2"] = PNone
    /\ Forall (fun repos => truthy repos = true)
         [PList [repo "acme" "app"];
          PList [repo "acme" "db"; repo "acme" "web"];
          PList [repo "acme" "tools"]].
Proof.
  apply (fetch_image_repos_yields_pages 4 "token" "acme" (boot three_repo_pages)
           [PList [repo "acme" "app"];
            PList [repo "acme" "db"; repo "acme" "web"];
            PList [repo "acme" "tools"]]
           [PNone; PStr "c1"; PStr "c2"]).
  - eapply repo_listing_more;
      [eexists; split; reflexivity | reflexivity | reflexivity | discriminate |].
    eapply repo_listing_more;
      [eexists; split; reflexivity | reflexivity | reflexivity | discriminate |].
    eapply repo_listing_last; [eexists; split; reflexivity | reflexivity | reflexivity].
  - simpl; lia.
Defined.

(** ** Errors are fatal *)

Lemma all_accepted_app (e1 e2 : list event) :
  all_accepted (e1 ++ e2) = all_accepted e1 && all_accepted e2.
Proof. apply forallb_app. Qed.

Section FailStop.

Context {A B : Type}.

Lemma fail_stop_silent (m : M A) :
  (forall w, trace (snd (m w)) = trace w) -> fail_stop m.
Proof.
  intros H w. exists []. rewrite app_nil_r. split; [apply H | now left].
Qed.

Lemma fail_stop_ret (a : A) : fail_stop (ret a).
Proof. now apply fail_stop_silent. Qed.

Lemma fail_stop_raise (e : exn) : fail_stop (@raise A e).
Proof. now apply fail_stop_silent. Qed.

Lemma fail_stop_out_of_fuel : fail_stop (@out_of_fuel A).
Proof. now apply fail_stop_silent. Qed.

Lemma fail_stop_lift (r : result A) : fail_stop (lift r).
Proof. now apply fail_stop_silent. Qed.

Lemma fail_stop_bind (m : M A) (k : A -> M B) :
  fail_stop m -> (forall a, fail_stop (k a)) -> fail_stop (bind m k).
Proof.
  intros Hm Hk w. unfold bind.
  destruct (Hm w) as (evs1 & Ht1 & H1).
  destruct (m w) as [[a|e|] w1]; cbn [fst snd] in *.
  - destruct (Hk a w1) as (evs2 & Ht2 & H2).
    exists (evs1 ++ evs2). split; [now rewrite Ht2, Ht1, app_assoc|].
    destruct H1 as [H1|(pre & req & o & _ & _ & _ & Hr)]; [|discriminate].
    destruct H2 as [H2|(pre & req & o & -> & Hpre & Hacc & Hr)].
    + left. now rewrite all_accepted_app, H1, H2.
    + right. exists (evs1 ++ pre), req, o.
      rewrite app_assoc, all_accepted_app, H1, Hpre. repeat split; auto.
  - exists evs1. split; [exact Ht1|].
    destruct H1 as [H1|(pre & req & o & -> & Hpre & Hacc & Hr)]; [now left|].
    injection Hr as ->. right. exists pre, req, o. repeat split; auto.
  - exists evs1. split; [exact Ht1|].
    destruct H1 as [H1|(pre & req & o & _ & _ & _ & Hr)]; [now left | discriminate].
Qed.

End FailStop.

Lemma fail_stop_log (level : log_level) (msg : log_msg) : fail_stop (log level msg).
Proof. intros w. exists [Log level msg]. split; [reflexivity | now left]. Qed.

Lemma fail_stop_counter : fail_stop next_processed_repos_counter.
Proof. now apply fail_stop_silent. Qed.

(** A listing call with its status test, then the rest of the body. *)
Lemma fail_stop_get {B} (req : Request) (k : HTTPResponse -> M B) :
  req_method req = GET ->
  (forall resp, fail_stop (k resp)) ->
  fail_stop
    (resp <- urlopen req ;;
     (if negb (status resp =? 200) then raise (RuntimeError (reason resp)) else ret tt) ;;;
     k resp).
Proof.
  intros Hget Hk w. unfold bind, urlopen.
  destruct (net w (calls w)) as [resp|e] eqn:Hnet.
  - destruct (status resp =? 200) eqn:Hst; cbn [negb raise ret].
    + match goal with
      | |- context [k resp ?w1] => destruct (Hk resp w1) as (evs & Ht & H)
      end.
      cbn [trace] in Ht.
      exists (Call req (Returned resp) :: evs).
      split; [now rewrite Ht, <- app_assoc|].
      assert (Hacc : accepted req (Returned resp) = true)
        by (unfold accepted; now rewrite Hget).
      destruct H as [H|(pre & r & o & -> & Hpre & Hno & Hr)].
      * left. simpl. now rewrite Hacc.
      * right. exists (Call req (Returned resp) :: pre), r, o.
        simpl. rewrite Hacc. repeat split; auto.
    + exists [Call req (Returned resp)]. split; [reflexivity|].
      right. exists [], req, (Returned resp). repeat split.
      unfold accepted. now rewrite Hget.
  - exists [Call req (Failed e)]. split; [reflexivity|].
    right. exists [], req, (Failed e). repeat split.
    unfold accepted. now rewrite Hget.
Qed.

Lemma fail_stop_delete_image_tag (tok : string) (ns nm tg : pyval) :
  fail_stop (delete_image_tag tok ns nm tg).
Proof.
  intros w. rewrite delete_image_tag_world. cbn [trace].
  eexists; split; [reflexivity|].
  unfold delete_image_tag, try_except_HTTPError, bind, urlopen, raise, ret.
  unfold stops_at_error, all_accepted.
  destruct (net w (calls w)) as [[st rs b]|e]; cbn [status reason fst].
  - destruct (st =? 200) eqn:E200; cbn [negb andb fst].
    + left. cbn [forallb accepted req_method status]. now rewrite E200.
    + destruct (st =? 204) eqn:E204; cbn [negb fst].
      * left. cbn [forallb accepted req_method status]. now rewrite E200, E204.
      * right. eexists [], _, _. repeat split.
        cbn [accepted req_method status]. now rewrite E200, E204.
  - destruct e as [| | | |st rs| | | |];
      try solve [right; eexists [], _, _; repeat split; reflexivity].
    destruct (st =? 404) eqn:E404; cbn [negb fst].
    + left. cbn [forallb accepted req_method]. now rewrite E404.
    + right. eexists [], _, _. repeat split.
      cbn [accepted req_method]. now rewrite E404.
Qed.

Ltac fail_stop_step :=
  lazymatch goal with
  | |- fail_stop (bind (urlopen _) _) => apply fail_stop_get; [reflexivity | intros ?]
  | |- fail_stop (bind _ _) => apply fail_stop_bind; [|intros ?]
  | |- fail_stop (ret _) => apply fail_stop_ret
  | |- fail_stop (raise _) => apply fail_stop_raise
  | |- fail_stop out_of_fuel => apply fail_stop_out_of_fuel
  | |- fail_stop (lift _) => apply fail_stop_lift
  | |- fail_stop (log _ _) => apply fail_stop_log
  | |- fail_stop next_processed_repos_counter => apply fail_stop_counter
  | |- fail_stop (delete_image_tag _ _ _ _) => apply fail_stop_delete_image_tag
  | |- fail_stop (json_loads ?r) => unfold json_loads; destruct (body r)
  | |- fail_stop (if ?b then _ else _) => destruct b
  | |- fail_stop (match ?x with _ => _ end) => destruct x
  end.

Lemma fail_stop_get_quay_tags_loop (fuel : nat) (tok : string) (ns nm : pyval) :
  forall (next_page : pyval) (all_tags : list pyval),
    fail_stop (get_quay_tags_loop fuel tok ns nm next_page all_tags).
Proof.
  induction fuel as [|fuel IH]; intros next_page all_tags; cbn [get_quay_tags_loop].
  - apply fail_stop_out_of_fuel.
  - repeat first [apply IH | fail_stop_step].
Qed.

Lemma fail_stop_remove_tags_loop (ds tags : list pyval) (tok : string) (ns nm : pyval)
    (dry : bool) :
  fail_stop (remove_tags_loop ds tags tok ns nm dry).
Proof.
  induction tags as [|tg rest IH]; cbn [remove_tags_loop].
  - apply fail_stop_ret.
  - repeat first [apply IH | fail_stop_step].
Qed.

Lemma fail_stop_remove_tags (tags : list pyval) (tok : string) (ns nm : pyval) (dry : bool) :
  fail_stop (remove_tags tags tok ns nm dry).
Proof.
  unfold remove_tags.
  repeat first [apply fail_stop_remove_tags_loop | fail_stop_step].
Qed.

Lemma fail_stop_process_repositories_loop (fuel : nat) (repos : list pyval) (tok : string)
    (dry : bool) :
  fail_stop (process_repositories_loop fuel repos tok dry).
Proof.
  induction repos as [|r rest IH]; cbn [process_repositories_loop].
  - apply fail_stop_ret.
  - repeat first [apply IH | apply fail_stop_get_quay_tags_loop
                 | apply fail_stop_remove_tags | fail_stop_step].
Qed.

Lemma fail_stop_process_repositories (fuel : nat) (repos : pyval) (tok : string)
    (dry : bool) :
  fail_stop (process_repositories fuel repos tok dry).
Proof.
  unfold process_repositories.
  repeat first [apply fail_stop_process_repositories_loop | fail_stop_step].
Qed.

Lemma fail_stop_fetch_image_repos_next (tok ns : string) (gen : generator) :
  fail_stop (fetch_image_repos_next tok ns gen).
Proof.
  unfold fetch_image_repos_next, fetch_image_repos_page.
  repeat fail_stop_step.
Qed.

Lemma fail_stop_main_loop (fuel inner : nat) (tok : string) (args : Args) :
  forall gen, fail_stop (main_loop fuel inner tok args gen).
Proof.
  induction fuel as [|fuel IH]; intros gen; cbn [main_loop].
  - apply fail_stop_out_of_fuel.
  - repeat first [apply IH | apply fail_stop_fetch_image_repos_next
                 | apply fail_stop_process_repositories | fail_stop_step].
Qed.

Lemma fail_stop_main (fuel : nat) (QUAY_TOKEN : option string) (argv : CommandLine) :
  fail_stop (main fuel QUAY_TOKEN argv).
Proof.
  unfold main, parse_args.
  repeat first [apply fail_stop_main_loop | fail_stop_step].
Qed.

(** C6. In a run of [process_repositories] and in a run of [main], a
    listing that is not answered with 200 or a deletion that is not
    answered with 200, 204 or 404 (a 500, say) is the last thing the run
    does: the run raises that error, and after the failed call there is
    no retry, no further call and no record of a further repository. *)
Theorem api_error_is_fatal
    (fuel : nat) (repos : pyval) (quay_token : string) (dry_run : bool)
    (QUAY_TOKEN : option string) (argv : CommandLine) (w : world) :
  (exists evs,
     trace (snd (process_repositories fuel repos quay_token dry_run w)) = trace w ++ evs
     /\ (all_accepted evs = true
         \/ exists pre req o,
              evs = pre ++ [Call req o]
              /\ all_accepted pre = true
              /\ accepted req o = false
              /\ fst (process_repositories fuel repos quay_token dry_run w)
                 = Raise (api_error o)))
  /\ (exists evs,
        trace (snd (main fuel QUAY_TOKEN argv w)) = trace w ++ evs
        /\ (all_accepted evs = true
            \/ exists pre req o,
                 evs = pre ++ [Call req o]
                 /\ all_accepted pre = true
                 /\ accepted req o = false
                 /\ fst (main fuel QUAY_TOKEN argv w) = Raise (api_error o))).
Proof.
  split.
  - apply (fail_stop_process_repositories fuel repos quay_token dry_run w).
  - apply (fail_stop_main fuel QUAY_TOKEN argv w).
Qed.

(** The run stops at the 500: three calls, and [acme/db] is never
    listed. *)
Example delete_500_halts_the_run :
  fst (main 5 (Some "token") (mkCommandLine (Some "acme") false) (boot failing_delete_run))
  = Raise (HTTPError 500 "Internal Server Error")
  /\ requests (trace (snd (main 5 (Some "token") (mkCommandLine (Some "acme") false)
                             (boot failing_delete_run))))
     = [repos_request "token" "acme" PNone;
        tags_request "token" (PStr "acme") (PStr "app") PNone;
        mkRequest DELETE (RepositoryTag (PStr "acme") (PStr "app") (PStr "sha256-ccc.att"))
          [] "token"]
  /\ info_logs (trace (snd (main 5 (Some "token") (mkCommandLine (Some "acme") false)
                              (boot failing_delete_run))))
     = [ProcessingRepository 0 (PStr "acme") (PStr "app");
        RemovingTag (PStr "sha256-ccc.att") (PStr "acme") (PStr "app")].
Proof. repeat split; vm_compute; reflexivity. Qed.

(** ** The credential *)

(** C8. Without [QUAY_TOKEN] in the environment, [main] raises
    [ValueError] at once: the exit status is 1, no call has been made and
    nothing has been logged, whatever the command line and the registry. *)
Theorem main_requires_token (fuel : nat) (argv : CommandLine) (w : world) :
  main fuel None argv w
  = (Raise (ValueError "The token required for access to Quay API is missing!"), w)
  /\ exit_status (fst (main fuel None argv w)) = Some 1.
Proof. split; reflexivity. Qed.

(** * Further properties *)

(** ** The language of the tag pattern *)

(** X1. [tag_regex.match] accepts exactly the names [sha256-<hex><suffix>]
    with a non-empty run of lower-case hex digits and one of the four
    suffixes, optionally followed by one final line feed, and group 1 is
    the run of digits. *)
Theorem tag_pattern_language (name hex : string) :
  tag_regex_match name = Some hex
  <-> hex <> ""
      /\ all_chars is_lower_hex hex = true
      /\ exists suffix tail,
           In suffix tag_suffixes
           /\ (tail = "" \/ tail = LF)
           /\ name = ("sha256-" ++ hex ++ suffix ++ tail)%string.
Proof.
  rewrite tag_regex_match_spec. split.
  - intros [h suffix tail Hne Hall Hin Htail].
    repeat split; auto. exists suffix, tail. auto.
  - intros (Hne & Hall & suffix & tail & Hin & Htail & ->).
    now constructor.
Qed.

(** ** Configuration errors *)

(** X2. When [QUAY_TOKEN] is unset or empty, or [--namespace] is missing,
    [main] stops with a non-zero exit status and leaves the world as it
    was: no call, no record. *)
Theorem main_fails_fast_on_configuration
    (fuel : nat) (QUAY_TOKEN : option string) (argv : CommandLine) (w : world)
    (Hbad : QUAY_TOKEN = None \/ QUAY_TOKEN = Some "" \/ opt_namespace argv = None) :
  snd (main fuel QUAY_TOKEN argv w) = w
  /\ exists code, exit_status (fst (main fuel QUAY_TOKEN argv w)) = Some code /\ code <> 0.
Proof.
  unfold main.
  destruct QUAY_TOKEN as [token|].
  - destruct (token =? "")%string eqn:E.
    + split; [reflexivity|]. exists 1. split; [reflexivity | discriminate].
    + destruct Hbad as [H|[H|H]]; [discriminate| |].
      * injection H as ->. discriminate.
      * unfold bind, parse_args. rewrite H.
        split; [reflexivity|]. exists 2. split; [reflexivity | discriminate].
  - split; [reflexivity|]. exists 1. split; [reflexivity | discriminate].
Qed.

Lemma main_fails_fast_on_configuration_witness :
  snd (main 5 (Some "token") (mkCommandLine None true) (boot three_repo_pages))
  = boot three_repo_pages
  /\ exists code,
       exit_status (fst (main 5 (Some "token") (mkCommandLine None true)
                           (boot three_repo_pages))) = Some code
       /\ code <> 0.
Proof.
  apply (main_fails_fast_on_configuration 5 (Some "token") (mkCommandLine None true)
           (boot three_repo_pages)).
  right; right; reflexivity.
Defined.

(** ** Malformed answers *)



(** ** A registry that never ends a listing *)

(** X4. [get_quay_tags] has no bound on the number of pages: when every
    answer has tags, a true [has_additional] and a [page], the loop is
    still running after any number of iterations, with one call made per
    iteration. *)
Theorem get_quay_tags_has_no_page_limit
    (fuel : nat) (quay_token : string) (namespace name : pyval) (w : world)
    (Hmore : forall k, (calls w <= k)%nat ->
               exists d batch next,
                 tags_response (net w k) d batch
                 /\ batch <> []
                 /\ truthy (dict_get d "has_additional" (PBool false)) = true
                 /\ py_add1 (dict_get d "page" PNone) = Ok next) :
  fst (get_quay_tags fuel quay_token namespace name w) = OutOfFuel
  /\ calls (snd (get_quay_tags fuel quay_token namespace name w)) = (calls w + fuel)%nat.
Proof.
  unfold get_quay_tags. generalize PNone as next_page. generalize (@nil pyval) as acc.
  revert w Hmore. induction fuel as [|fuel IH]; intros w Hmore acc next_page.
  - simpl. split; [reflexivity | lia].
  - destruct (Hmore (calls w) (le_n _)) as (d & batch & next & (rs & Hresp & Htags)
                                             & Hne & Hadd & Hnext).
    assert (Hiter : py_iter (dict_get d "tags" (PList [])) = Ok batch) by now rewrite Htags.
    rewrite (get_quay_tags_loop_step fuel quay_token namespace name next_page acc w rs d
               batch Hresp Hiter).
    rewrite Htags. destruct batch as [|x batch]; [contradiction|]. cbn [truthy negb].
    rewrite Hadd, Hnext.
    destruct (IH (called (tags_request quay_token namespace name next_page) w)) with
      (acc := acc ++ x :: batch) (next_page := next) as [Hr Hc].
    { intros k Hk. apply Hmore. cbn [called calls] in Hk. lia. }
    split; [exact Hr|]. rewrite Hc. cbn [called calls]. lia.
Qed.

Lemma get_quay_tags_has_no_page_limit_witness :
  fst (get_quay_tags 7 "token" (PStr "acme") (PStr "app") (boot endless_tag_pages))
  = OutOfFuel
  /\ calls (snd (get_quay_tags 7 "token" (PStr "acme") (PStr "app")
                   (boot endless_tag_pages)))
     = (calls (boot endless_tag_pages) + 7)%nat.
Proof.
  apply (get_quay_tags_has_no_page_limit 7 "token" (PStr "acme") (PStr "app")
           (boot endless_tag_pages)).
  intros k _. eexists _, _, _. split; [eexists; split; reflexivity|].
  split; [discriminate|]. split; reflexivity.
Defined.

(** ** A namespace without repositories *)

(** X5. When the first page of repositories is empty (or has no
    [repositories]), [main] returns normally after that single call,
    whatever the mode. *)
Theorem main_on_empty_namespace
    (fuel : nat) (token namespace : string) (dry_run : bool) (w : world)
    (rs : string) (d : list (string * pyval))
    (Htoken : token <> "")
    (Hnet : net w (calls w) = Returned (mkResponse 200 rs (Some (PDict d))))
    (Hempty : truthy (dict_get d "repositories" (PList [])) = false) :
  main (S fuel) (Some token) (mkCommandLine (Some namespace) dry_run) w
  = (Ok tt,
     add_event (Log DEBUG NoImageRepository)
       (called (repos_request token namespace PNone) w)).
Proof.
  unfold main. destruct (token =? "")%string eqn:E.
  - apply String.eqb_eq in E. contradiction.
  - unfold bind at 1. unfold parse_args. cbn [opt_namespace opt_dry_run ret].
    cbn [main_loop fetch_image_repos_next args_namespace]. unfold bind at 1.
    rewrite (fetch_image_repos_page_step token namespace PNone w rs d Hnet), Hempty.
    reflexivity.
Qed.

Lemma main_on_empty_namespace_witness :
  main 1 (Some "token") (mkCommandLine (Some "acme") false)
    (boot (script [ok_json [("repositories", PList [])]]))
  = (Ok tt,
     add_event (Log DEBUG NoImageRepository)
       (called (repos_request "token" "acme" PNone)
          (boot (script [ok_json [("repositories", PList [])]])))).
Proof.
  apply (main_on_empty_namespace 0 "token" "acme" false
           (boot (script [ok_json [("repositories", PList [])]]))
           "OK" [("repositories", PList [])]).
  - discriminate.
  - reflexivity.
  - reflexivity.
Defined.

(** ** All the orphans, in order *)

Lemma find_orphan_tags_selected (tags ds : list pyval) :
  manifest_digests tags = Ok ds ->
  FindOrphanTags tags = filter (selected ds) tags.
Proof.
  intros Hds. unfold FindOrphanTags. apply filter_ext. intros x.
  unfold selected. destruct (py_getitem x "name") as [[| | |s| |]| |]; try reflexivity.
  destruct (tag_regex_match s); [|reflexivity].
  now rewrite (str_in_digests tags ds _ Hds).
Qed.

Lemma remove_tags_loop_dry (ds tags : list pyval) (tok : string) (ns nm : pyval)
    (w : world) :
  Forall tag_fields tags ->
  exists evs,
    remove_tags_loop ds tags tok ns nm true w
    = (Ok tt, mkWorld (net w) (calls w) (trace w ++ evs) (processed_repos_counter w))
    /\ info_logs evs
       = map (fun t => ShouldBeRemoved (tag_name t) ns nm) (filter (selected ds) tags)
    /\ requests evs = [].
Proof.
  revert w; induction tags as [|tg rest IH]; intros w Hf.
  - exists []. rewrite app_nil_r. destruct w; repeat split.
  - inversion Hf as [|? ? (n & d & Hn & _) Hrest]; subst.
    rewrite (remove_tags_loop_named _ _ _ _ _ _ _ n _ Hn).
    cbn [filter]. unfold selected at 1. rewrite Hn.
    unfold bind.
    destruct (tag_regex_match n) as [hex|].
    + destruct (negb (str_in ("sha256:" ++ hex) ds)).
      * unfold log.
        destruct (IH (add_event (Log INFO (ShouldBeRemoved (PStr n) ns nm)) w) Hrest)
          as (evs & -> & Hi & Hr).
        exists (Log INFO (ShouldBeRemoved (PStr n) ns nm) :: evs).
        cbn [add_event net calls trace processed_repos_counter].
        rewrite <- app_assoc. split; [reflexivity|]. split; [|exact Hr].
        cbn [map]. unfold tag_name at 1. rewrite Hn.
        change (info_logs (Log INFO (ShouldBeRemoved (PStr n) ns nm) :: evs))
          with (ShouldBeRemoved (PStr n) ns nm :: info_logs evs).
        now rewrite Hi.
      * cbn [ret]. apply (IH w Hrest).
    + unfold log.
      destruct (IH (add_event (Log DEBUG (NotSuffixTag (PStr n))) w) Hrest)
        as (evs & -> & Hi & Hr).
      exists (Log DEBUG (NotSuffixTag (PStr n)) :: evs).
      cbn [add_event net calls trace processed_repos_counter].
      rewrite <- app_assoc. repeat split; auto.
Qed.

(** X6. For tags that carry their fields, a dry run of [remove_tags]
    returns normally, makes no call, and writes one "should be removed"
    message per orphan of the list, all of them and in list order. *)
Theorem dry_run_reports_every_orphan
    (tags : list pyval) (quay_token : string) (namespace name : pyval) (w : world)
    (Hfields : Forall tag_fields tags) :
  exists evs,
    remove_tags tags quay_token namespace name true w
    = (Ok tt, mkWorld (net w) (calls w) (trace w ++ evs) (processed_repos_counter w))
    /\ info_logs evs
       = map (fun t => ShouldBeRemoved (tag_name t) namespace name) (FindOrphanTags tags)
    /\ requests evs = [].
Proof.
  destruct (manifest_digests_total tags Hfields) as [ds Hds].
  unfold remove_tags, bind, lift. rewrite Hds.
  rewrite (find_orphan_tags_selected tags ds Hds).
  apply remove_tags_loop_dry. exact Hfields.
Qed.

Lemma dry_run_reports_every_orphan_witness :
  exists evs,
    remove_tags [tag "sha256-bbb.sig" "sha256:aaa"; tag "sha256-ccc.att" "sha256:ddd"]
      "token" (PStr "acme") (PStr "app") true (boot (script []))
    = (Ok tt, mkWorld (script []) 0 ([] ++ evs) 0)
    /\ info_logs evs
       = map (fun t => ShouldBeRemoved (tag_name t) (PStr "acme") (PStr "app"))
           (FindOrphanTags [tag "sha256-bbb.sig" "sha256:aaa";
                            tag "sha256-ccc.att" "sha256:ddd"])
    /\ requests evs = [].
Proof.
  apply (dry_run_reports_every_orphan
           [tag "sha256-bbb.sig" "sha256:aaa"; tag "sha256-ccc.att" "sha256:ddd"]
           "token" (PStr "acme") (PStr "app") (boot (script []))).
  repeat constructor; do 2 eexists; split; reflexivity.
Defined.




(** ** A tag without a name *)

Lemma bind_assoc {A B C} (m : M A) (k : A -> M B) (h : B -> M C) (w : world) :
  bind (bind m k) h w = bind m (fun a => bind (k a) h) w.
Proof. unfold bind. destruct (m w) as [[a|e|] w1]; reflexivity. Qed.

Lemma bind_ext {A B} (m : M A) (k k' : A -> M B) (w : world) :
  (forall a w', k a w' = k' a w') -> bind m k w = bind m k' w.
Proof. intros H. unfold bind. destruct (m w) as [[a|e|] w1]; auto. Qed.

(** The loop over a concatenation runs the first part, then the second. *)
Lemma remove_tags_loop_app (ds pre post : list pyval) (tok : string) (ns nm : pyval)
    (dry : bool) :
  forall w,
    remove_tags_loop ds (pre ++ post) tok ns nm dry w
    = bind (remove_tags_loop ds pre tok ns nm dry)
        (fun _ => remove_tags_loop ds post tok ns nm dry) w.
Proof.
  induction pre as [|tg pre IH]; intros w.
  - reflexivity.
  - cbn [app remove_tags_loop].
    rewrite bind_assoc. apply bind_ext. intros tag_name w1.
    rewrite bind_assoc. apply bind_ext. intros m w2.
    rewrite bind_assoc. apply bind_ext. intros _ w3.
    apply IH.
Qed.

(** X8. A tag that has a [manifest_digest] but no [name] makes
    [remove_tags] raise [KeyError] only when the loop reaches it: the tags
    before it have been handled (reported, or deleted in a live run), the
    tags after it are not looked at. *)
Theorem remove_tags_missing_name
    (pre post : list pyval) (d : list (string * pyval)) (ds : list pyval)
    (quay_token : string) (namespace name : pyval) (dry_run : bool) (w : world)
    (Hdigests : manifest_digests (pre ++ PDict d :: post) = Ok ds)
    (Hname : assoc "name" d = None) :
  remove_tags (pre ++ PDict d :: post) quay_token namespace name dry_run w
  = match remove_tags_loop ds pre quay_token namespace name dry_run w with
    | (Ok _, w1) => (Raise (KeyError "name"), w1)
    | stopped => stopped
    end.
Proof.
  unfold remove_tags. unfold bind at 1. unfold lift at 1. rewrite Hdigests.
  rewrite remove_tags_loop_app. unfold bind at 1.
  destruct (remove_tags_loop ds pre quay_token namespace name dry_run w) as [[[]|e|] w1];
    try reflexivity.
  cbn [remove_tags_loop]. unfold bind at 1. unfold lift at 1.
  cbn [py_getitem]. rewrite Hname. reflexivity.
Qed.

Lemma remove_tags_missing_name_witness :
  remove_tags
    ([tag "sha256-ccc.att" "sha256:ddd"]
     ++ PDict [("manifest_digest", PStr "sha256:aaa")] :: [tag "sha256-eee.sig" "sha256:fff"])
    "token" (PStr "acme") (PStr "app") true (boot (script []))
  = match remove_tags_loop [PStr "sha256:ddd"; PStr "sha256:aaa"; PStr "sha256:fff"]
            [tag "sha256-ccc.att" "sha256:ddd"]
            "token" (PStr "acme") (PStr "app") true (boot (script [])) with
    | (Ok _, w1) => (Raise (KeyError "name"), w1)
    | stopped => stopped
    end.
Proof.
  apply (remove_tags_missing_name [tag "sha256-ccc.att" "sha256:ddd"]
           [tag "sha256-eee.sig" "sha256:fff"] [("manifest_digest", PStr "sha256:aaa")]
           [PStr "sha256:ddd"; PStr "sha256:aaa"; PStr "sha256:fff"]
           "token" (PStr "acme") (PStr "app") true (boot (script []))).
  - reflexivity.
  - reflexivity.
Defined.

(** ** One repository, all its pages *)

(** X9. For a repository with its [namespace] and [name],
    [process_repositories] takes the next counter value, writes the
    "Processing repository" message, lists the tags page by page, and
    then runs [remove_tags] once on the tags of all the pages together
    before it goes on to the next repository; a repository without tags
    is skipped. *)
Theorem process_repository_checks_all_pages
    (fuel : nat) (repo0 : pyval) (rest : list pyval) (quay_token : string)
    (dry_run : bool) (w : world) (namespace name : pyval)
    (batches : list (list pyval)) (pages : list pyval)
    (Hnamespace : py_getitem repo0 "namespace" = Ok namespace)
    (Hname : py_getitem repo0 "name" = Ok name)
    (Hlisting : tag_listing (net w) (calls w) PNone batches pages)
    (Hfuel : (List.length batches <= fuel)%nat) :
  exists evs,
    requests evs = map (tags_request quay_token namespace name) pages
    /\ process_repositories_loop fuel (repo0 :: rest) quay_token dry_run w
       = match List.concat batches with
         | [] => process_repositories_loop fuel rest quay_token dry_run
         | _ :: _ =>
             bind (remove_tags (List.concat batches) quay_token namespace name dry_run)
               (fun _ => process_repositories_loop fuel rest quay_token dry_run)
         end
           (mkWorld (net w) (calls w + List.length batches)
              (trace w
               ++ Log INFO (ProcessingRepository (processed_repos_counter w) namespace name)
                  :: evs)
              (S (processed_repos_counter w))).
Proof.
  set (w0 := add_event
               (Log INFO (ProcessingRepository (processed_repos_counter w) namespace name))
               (mkWorld (net w) (calls w) (trace w) (S (processed_repos_counter w)))).
  destruct (get_quay_tags_loop_listing quay_token namespace name batches pages fuel
              PNone [] w0 Hlisting Hfuel) as (evs & Hget & Hreq).
  exists evs. split; [exact Hreq|].
  cbn [process_repositories_loop].
  unfold bind at 1. unfold lift at 1. rewrite Hnamespace.
  unfold bind at 1. unfold lift at 1. rewrite Hname.
  unfold bind at 1. unfold next_processed_repos_counter at 1.
  unfold bind at 1. unfold log at 1. fold w0.
  unfold bind at 1. unfold get_quay_tags. rewrite Hget.
  cbn [app]. unfold w0.
  cbn [add_event net calls trace processed_repos_counter].
  rewrite <- app_assoc. cbn [app].
  destruct (List.concat batches); reflexivity.
Qed.

Lemma process_repository_checks_all_pages_witness :
  exists evs,
    requests evs = map (tags_request "token" (PStr "acme") (PStr "app")) [PNone; PInt 2]
    /\ process_repositories_loop 2 (repo "acme" "app" :: []) "token" true
         (boot repeated_tag_pages)
       = match List.concat [[tag "v1" "sha256:aaa"]; [tag "v1" "sha256:aaa"]] with
         | [] => process_repositories_loop 2 [] "token" true
         | _ :: _ =>
             bind (remove_tags (List.concat [[tag "v1" "sha256:aaa"]; [tag "v1" "sha256:aaa"]])
                     "token" (PStr "acme") (PStr "app") true)
               (fun _ => process_repositories_loop 2 [] "token" true)
         end
           (mkWorld repeated_tag_pages
              (0 + List.length [[tag "v1" "sha256:aaa"]; [tag "v1" "sha256:aaa"]])
              ([] ++ Log INFO (ProcessingRepository 0 (PStr "acme") (PStr "app")) :: evs)
              1).
Proof.
  apply (process_repository_checks_all_pages 2 (repo "acme" "app") [] "token" true
           (boot repeated_tag_pages) (PStr "acme") (PStr "app")
           [[tag "v1" "sha256:aaa"]; [tag "v1" "sha256:aaa"]] [PNone; PInt 2]).
  - reflexivity.
  - reflexivity.
  - eapply tag_listing_more.
    + eexists; split; reflexivity.
    + discriminate.
    + reflexivity.
    + reflexivity.
    + eapply tag_listing_last.
      * eexists; split; reflexivity.
      * right; reflexivity.
  - simpl; lia.
Defined.

(** ** What every call of a run looks like *)

Lemma emits_silent {A} (P : event -> Prop) (m : M A) :
  (forall w, trace (snd (m w)) = trace w) -> emits P m.
Proof. intros H w. exists []. rewrite app_nil_r. split; [apply H | constructor]. Qed.

Lemma emits_one {A} (P : event -> Prop) (m : M A) (e : world -> event) :
  (forall w, trace (snd (m w)) = trace w ++ [e w]) -> (forall w, P (e w)) -> emits P m.
Proof. intros H HP w. exists [e w]. split; [apply H | repeat constructor; apply HP]. Qed.

Lemma emits_bind {A B} (P : event -> Prop) (m : M A) (k : A -> M B) :
  emits P m -> (forall a, emits P (k a)) -> emits P (bind m k).
Proof.
  intros Hm Hk w. unfold bind.
  destruct (Hm w) as (evs1 & Ht1 & H1).
  destruct (m w) as [[a|e|] w1]; cbn [fst snd] in *.
  - destruct (Hk a w1) as (evs2 & Ht2 & H2).
    exists (evs1 ++ evs2). split; [now rewrite Ht2, Ht1, app_assoc|].
    apply Forall_app. now split.
  - now exists evs1.
  - now exists evs1.
Qed.

Lemma emits_urlopen (P : event -> Prop) (req : Request) :
  (forall o, P (Call req o)) -> emits P (urlopen req).
Proof.
  intros H. apply (emits_one P _ (fun w => Call req (net w (calls w)))).
  - intros w. unfold urlopen. destruct (net w (calls w)); reflexivity.
  - intros w. apply H.
Qed.

Lemma emits_delete_image_tag (P : event -> Prop) (tok : string) (ns nm t : pyval) :
  (forall o, P (Call (delete_request tok ns nm t) o)) ->
  emits P (delete_image_tag tok ns nm t).
Proof.
  intros H. apply (emits_one P _ (fun w => Call (delete_request tok ns nm t)
                                               (net w (calls w)))).
  - intros w. now rewrite delete_image_tag_world.
  - intros w. apply H.
Qed.

Lemma emits_log (P : event -> Prop) (level : log_level) (msg : log_msg) :
  P (Log level msg) -> emits P (log level msg).
Proof.
  intros H. apply (emits_one P _ (fun _ => Log level msg)); [reflexivity | now intros _].
Qed.

Ltac emits_step Hev :=
  lazymatch goal with
  | |- emits _ (bind _ _) => apply emits_bind; [|intros ?]
  | |- emits _ (urlopen _) =>
      apply emits_urlopen; intros ?;
      first [apply (proj1 (proj2 Hev)) | apply (proj1 (proj2 (proj2 Hev)))]
  | |- emits _ (log _ _) => apply emits_log; apply (proj1 Hev)
  | |- emits _ (json_loads ?r) => unfold json_loads; destruct (body r)
  | |- emits _ (if ?b then _ else _) => destruct b
  | |- emits _ (match ?x with _ => _ end) => destruct x
  | |- emits _ _ => apply emits_silent; reflexivity
  end.

Lemma emits_get_quay_tags_loop (P : event -> Prop) (tok : string) (dry : bool)
    (fuel : nat) (ns nm : pyval) :
  script_events P tok dry ->
  forall next_page all_tags, emits P (get_quay_tags_loop fuel tok ns nm next_page all_tags).
Proof.
  intros Hev. induction fuel as [|fuel IH]; intros next_page all_tags;
    cbn [get_quay_tags_loop].
  - apply emits_silent; reflexivity.
  - fold (tags_request tok ns nm next_page).
    repeat first [apply IH | emits_step Hev].
Qed.

Lemma emits_remove_tags_loop (P : event -> Prop) (tok : string) (dry : bool)
    (ds tags : list pyval) (ns nm : pyval) :
  script_events P tok dry ->
  emits P (remove_tags_loop ds tags tok ns nm dry).
Proof.
  intros Hev. induction tags as [|tg rest IH]; cbn [remove_tags_loop].
  - apply emits_silent; reflexivity.
  - apply emits_bind; [apply emits_silent; reflexivity | intros tag_name].
    apply emits_bind; [apply emits_silent; reflexivity | intros m].
    apply emits_bind; [|intros _; exact IH].
    destruct m as [group1|]; [|emits_step Hev].
    destruct (negb (str_in ("sha256:" ++ group1) ds)); [|emits_step Hev].
    destruct dry; [emits_step Hev|].
    apply emits_bind; [emits_step Hev | intros _].
    apply emits_delete_image_tag. intros o.
    apply (proj2 (proj2 (proj2 Hev)) eq_refl).
Qed.

Lemma emits_process_repositories (P : event -> Prop) (tok : string) (dry : bool)
    (fuel : nat) (repos : pyval) :
  script_events P tok dry ->
  emits P (process_repositories fuel repos tok dry).
Proof.
  intros Hev. unfold process_repositories.
  apply emits_bind; [apply emits_silent; reflexivity | intros items].
  induction items as [|r rest IH]; cbn [process_repositories_loop].
  - apply emits_silent; reflexivity.
  - apply emits_bind; [apply emits_silent; reflexivity | intros ns].
    apply emits_bind; [apply emits_silent; reflexivity | intros nm].
    apply emits_bind; [apply emits_silent; reflexivity | intros index].
    apply emits_bind; [emits_step Hev | intros _].
    apply emits_bind; [apply (emits_get_quay_tags_loop P tok dry); exact Hev | intros tags].
    apply emits_bind; [|intros _; exact IH].
    destruct tags; [apply emits_silent; reflexivity|].
    unfold remove_tags.
    apply emits_bind; [apply emits_silent; reflexivity | intros ds].
    apply (emits_remove_tags_loop P tok dry); exact Hev.
Qed.

Lemma emits_fetch_image_repos_next (P : event -> Prop) (tok : string) (dry : bool)
    (ns : string) (gen : generator) :
  script_events P tok dry ->
  emits P (fetch_image_repos_next tok ns gen).
Proof.
  intros Hev.
  assert (Hpage : forall np, emits P (fetch_image_repos_page tok ns np)).
  { intros np. unfold fetch_image_repos_page. fold (repos_request tok ns np).
    repeat emits_step Hev. }
  unfold fetch_image_repos_next.
  destruct gen as [|json_data|]; [apply Hpage | | apply emits_silent; reflexivity].
  apply emits_bind; [apply emits_silent; reflexivity | intros np].
  destruct np; solve [apply Hpage | apply emits_silent; reflexivity].
Qed.

Lemma emits_main_loop (P : event -> Prop) (tok : string) (args : Args) (fuel : nat) :
  script_events P tok (args_dry_run args) ->
  forall inner gen, emits P (main_loop fuel inner tok args gen).
Proof.
  intros Hev. induction fuel as [|n IH]; intros inner gen; cbn [main_loop].
  - apply emits_silent; reflexivity.
  - apply emits_bind;
      [apply (emits_fetch_image_repos_next P tok (args_dry_run args)); exact Hev
      |intros [[image_repos|] gen']].
    + apply emits_bind; [|intros _; apply IH].
      apply (emits_process_repositories P tok (args_dry_run args)); exact Hev.
    + apply emits_silent; reflexivity.
Qed.

Lemma emits_main (P : event -> Prop) (fuel : nat) (QUAY_TOKEN : option string)
    (argv : CommandLine) :
  (forall tok, QUAY_TOKEN = Some tok -> script_events P tok (opt_dry_run argv)) ->
  emits P (main fuel QUAY_TOKEN argv).
Proof.
  intros Hev. unfold main.
  destruct QUAY_TOKEN as [tok|]; [|apply emits_silent; reflexivity].
  specialize (Hev tok eq_refl).
  destruct (tok =? "")%string; [apply emits_silent; reflexivity|].
  unfold parse_args.
  destruct (opt_namespace argv) as [ns|]; [|apply emits_silent; reflexivity].
  change (emits P (main_loop fuel fuel tok (mkArgs ns (opt_dry_run argv)) Created)).
  apply emits_main_loop. exact Hev.
Qed.

Lemma requests_forall (Q : Request -> Prop) (evs : list event) :
  Forall (fun e => match e with Call req _ => Q req | Log _ _ => True end) evs ->
  Forall Q (requests evs).
Proof.
  induction 1 as [|e evs He _ IH]; [constructor|].
  destruct e as [req o|level msg]; simpl; [constructor|]; auto.
Qed.

(** X10. Every call a run of [main] makes carries the value of
    [QUAY_TOKEN] as its bearer token. *)
Theorem every_call_carries_the_token
    (fuel : nat) (QUAY_TOKEN : option string) (argv : CommandLine) (w : world) :
  exists evs,
    trace (snd (main fuel QUAY_TOKEN argv w)) = trace w ++ evs
    /\ Forall (fun req => Some (req_bearer req) = QUAY_TOKEN) (requests evs).
Proof.
  destruct (emits_main
              (fun e => match e with
                        | Call req _ => Some (req_bearer req) = QUAY_TOKEN
                        | Log _ _ => True
                        end) fuel QUAY_TOKEN argv) with (w := w) as (evs & Ht & H).
  { intros tok ->. repeat split; auto. }
  exists evs. split; [exact Ht|]. now apply requests_forall.
Qed.

(** X11. With [--dry-run], a run of [main] makes GET calls only: nothing
    is deleted, whatever the registry answers. *)
Theorem dry_run_never_deletes
    (fuel : nat) (QUAY_TOKEN : option string) (argv : CommandLine) (w : world)
    (Hdry : opt_dry_run argv = true) :
  exists evs,
    trace (snd (main fuel QUAY_TOKEN argv w)) = trace w ++ evs
    /\ Forall (fun req => req_method req = GET) (requests evs).
Proof.
  destruct (emits_main read_only fuel QUAY_TOKEN argv) with (w := w) as (evs & Ht & H).
  { intros tok _. rewrite Hdry. repeat split; auto. discriminate. }
  exists evs. split; [exact Ht|]. now apply requests_forall.
Qed.

Lemma dry_run_never_deletes_witness :
  exists evs,
    trace (snd (main 5 (Some "token") (mkCommandLine (Some "acme") true)
                  (boot failing_delete_run)))
    = [] ++ evs
    /\ Forall (fun req => req_method req = GET) (requests evs).
Proof.
  apply (dry_run_never_deletes 5 (Some "token") (mkCommandLine (Some "acme") true)
           (boot failing_delete_run)).
  reflexivity.
Defined.

(** ** The numbering of the repositories *)

Lemma processing_indices_app (t1 t2 : list event) :
  processing_indices (t1 ++ t2) = processing_indices t1 ++ processing_indices t2.
Proof. apply flat_map_app. Qed.

Lemma numbers_silent {A} (m : M A) :
  (forall w, trace (snd (m w)) = trace w
             /\ processed_repos_counter (snd (m w)) = processed_repos_counter w) ->
  numbers_repositories m.
Proof.
  intros H w. destruct (H w) as [Ht Hc]. exists [].
  rewrite app_nil_r, Hc, Nat.sub_diag. repeat split; auto.
Qed.

Lemma numbers_one {A} (m : M A) (e : world -> event) :
  (forall w, trace (snd (m w)) = trace w ++ [e w]
             /\ processed_repos_counter (snd (m w)) = processed_repos_counter w) ->
  (forall w, processing_indices [e w] = []) ->
  numbers_repositories m.
Proof.
  intros H He w. destruct (H w) as [Ht Hc]. exists [e w].
  rewrite Hc, Nat.sub_diag, He. repeat split; auto.
Qed.

Lemma numbers_bind {A B} (m : M A) (k : A -> M B) :
  numbers_repositories m -> (forall a, numbers_repositories (k a)) ->
  numbers_repositories (bind m k).
Proof.
  intros Hm Hk w. unfold bind.
  destruct (Hm w) as (evs1 & Ht1 & Hc1 & Hi1).
  destruct (m w) as [[a|e|] w1]; cbn [fst snd] in *.
  - destruct (Hk a w1) as (evs2 & Ht2 & Hc2 & Hi2).
    exists (evs1 ++ evs2). split; [now rewrite Ht2, Ht1, app_assoc|].
    split; [lia|].
    rewrite processing_indices_app, Hi1, Hi2.
    replace (processed_repos_counter (snd (k a w1)) - processed_repos_counter w)%nat
      with ((processed_repos_counter w1 - processed_repos_counter w)
            + (processed_repos_counter (snd (k a w1)) - processed_repos_counter w1))%nat
      by lia.
    rewrite seq_app. do 2 f_equal. lia.
  - now exists evs1.
  - now exists evs1.
Qed.

Lemma numbers_log (level : log_level) (msg : log_msg) :
  processing_indices [Log level msg] = [] -> numbers_repositories (log level msg).
Proof.
  intros H. apply (numbers_one _ (fun _ => Log level msg)); [|now intros _].
  intros w. split; reflexivity.
Qed.

Lemma numbers_urlopen (req : Request) : numbers_repositories (urlopen req).
Proof.
  apply (numbers_one _ (fun w => Call req (net w (calls w)))); [|reflexivity].
  intros w. unfold urlopen. destruct (net w (calls w)); split; reflexivity.
Qed.

Lemma numbers_delete_image_tag (tok : string) (ns nm t : pyval) :
  numbers_repositories (delete_image_tag tok ns nm t).
Proof.
  apply (numbers_one _ (fun w => Call (delete_request tok ns nm t) (net w (calls w))));
    [|reflexivity].
  intros w. rewrite delete_image_tag_world. split; reflexivity.
Qed.

(** Taking a counter value and writing it in the "Processing repository"
    record go together. *)
Lemma numbers_processing {B} (ns nm : pyval) (k : M B) :
  numbers_repositories k ->
  numbers_repositories
    (index <- next_processed_repos_counter ;;
     log INFO (ProcessingRepository index ns nm) ;;;
     k).
Proof.
  intros Hk w. unfold bind, next_processed_repos_counter, log.
  cbn [add_event net calls trace processed_repos_counter].
  match goal with
  | |- context [k ?w1] => destruct (Hk w1) as (evs & Ht & Hc & Hi)
  end.
  unfold add_event in *. cbn [net calls trace processed_repos_counter] in *.
  exists (Log INFO (ProcessingRepository (processed_repos_counter w) ns nm) :: evs).
  split; [now rewrite Ht, <- app_assoc|].
  split; [lia|].
  change (processing_indices
            (Log INFO (ProcessingRepository (processed_repos_counter w) ns nm) :: evs))
    with (processed_repos_counter w :: processing_indices evs).
  rewrite Hi.
  match goal with
  | |- _ = seq _ (?c2 - _) =>
      replace (c2 - processed_repos_counter w)%nat
        with (S (c2 - S (processed_repos_counter w))) by lia
  end.
  reflexivity.
Qed.

Ltac numbers_step :=
  lazymatch goal with
  | |- numbers_repositories (bind next_processed_repos_counter _) =>
      apply numbers_processing
  | |- numbers_repositories (bind _ _) => apply numbers_bind; [|intros ?]
  | |- numbers_repositories (urlopen _) => apply numbers_urlopen
  | |- numbers_repositories (delete_image_tag _ _ _ _) => apply numbers_delete_image_tag
  | |- numbers_repositories (log _ _) => apply numbers_log; reflexivity
  | |- numbers_repositories (json_loads ?r) => unfold json_loads; destruct (body r)
  | |- numbers_repositories (if ?b then _ else _) => destruct b
  | |- numbers_repositories (match ?x with _ => _ end) => destruct x
  | |- numbers_repositories _ => apply numbers_silent; intros ?; split; reflexivity
  end.

Lemma numbers_get_quay_tags_loop (fuel : nat) (tok : string) (ns nm : pyval) :
  forall next_page all_tags,
    numbers_repositories (get_quay_tags_loop fuel tok ns nm next_page all_tags).
Proof.
  induction fuel as [|fuel IH]; intros next_page all_tags; cbn [get_quay_tags_loop].
  - numbers_step.
  - repeat first [apply IH | numbers_step].
Qed.

Lemma numbers_remove_tags (tags : list pyval) (tok : string) (ns nm : pyval) (dry : bool) :
  numbers_repositories (remove_tags tags tok ns nm dry).
Proof.
  unfold remove_tags. apply numbers_bind; [numbers_step | intros ds].
  induction tags as [|tg rest IH]; cbn [remove_tags_loop].
  - numbers_step.
  - repeat first [apply IH | numbers_step].
Qed.

Lemma numbers_process_repositories (fuel : nat) (repos : pyval) (tok : string)
    (dry : bool) :
  numbers_repositories (process_repositories fuel repos tok dry).
Proof.
  unfold process_repositories. apply numbers_bind; [numbers_step | intros items].
  induction items as [|r rest IH]; cbn [process_repositories_loop].
  - numbers_step.
  - apply numbers_bind; [numbers_step | intros ns].
    apply numbers_bind; [numbers_step | intros nm].
    apply numbers_processing.
    apply numbers_bind; [apply numbers_get_quay_tags_loop | intros tags].
    apply numbers_bind; [|intros _; exact IH].
    destruct tags; [numbers_step | apply numbers_remove_tags].
Qed.

Lemma numbers_fetch_image_repos_next (tok ns : string) (gen : generator) :
  numbers_repositories (fetch_image_repos_next tok ns gen).
Proof.
  unfold fetch_image_repos_next, fetch_image_repos_page.
  repeat numbers_step.
Qed.

Lemma numbers_main_loop (fuel inner : nat) (tok : string) (args : Args) :
  forall gen, numbers_repositories (main_loop fuel inner tok args gen).
Proof.
  induction fuel as [|fuel IH]; intros gen; cbn [main_loop].
  - numbers_step.
  - apply numbers_bind; [apply numbers_fetch_image_repos_next | intros [[repos|] gen']].
    + apply numbers_bind; [apply numbers_process_repositories | intros _; apply IH].
    + numbers_step.
Qed.

(** X12. In a run of [main] the counter never goes back, and the
    "Processing repository" records carry the successive values it took:
    the repositories are numbered consecutively from the value at the
    start, across the batches of the namespace. *)
Theorem repositories_are_numbered_consecutively
    (fuel : nat) (QUAY_TOKEN : option string) (argv : CommandLine) (w : world) :
  exists evs,
    trace (snd (main fuel QUAY_TOKEN argv w)) = trace w ++ evs
    /\ (processed_repos_counter w
        <= processed_repos_counter (snd (main fuel QUAY_TOKEN argv w)))%nat
    /\ processing_indices evs
       = seq (processed_repos_counter w)
           (processed_repos_counter (snd (main fuel QUAY_TOKEN argv w))
            - processed_repos_counter w).
Proof.
  assert (H : numbers_repositories (main fuel QUAY_TOKEN argv)).
  { unfold main, parse_args.
    repeat first [apply numbers_main_loop | numbers_step]. }
  apply H.
Qed.
